(** * Verification of [scripts/pdf_processor.py]

    A shallow embedding of the document processor: the flattener
    [flatten_json], the three extractors, the re-chunker [split_into_chunks]
    and the orchestrator [process_document], followed by the properties the
    specification states about them.

    Conventions of the embedding.
    - A Python [str] is a [string]; each [ascii] stands for one code point
      (those below 256), so [len] is [String.length].
    - Python integers are [Z]; counters produced by [enumerate] and [len]
      are [nat] and are injected with [Z.of_nat] where they are stored.
    - A Python [dict] is an association list in insertion order whose keys
      are kept distinct by [dict_set], which overwrites in place.
    - An exception is a value of [exn]; code that may raise returns an
      [outcome].  Logging and the output file are threaded as a state. *)

From Stdlib Require Import Strings.String Strings.Ascii.
From Stdlib Require Import ZArith Lia Bool.
From Stdlib Require Import Numbers.DecimalString Numbers.DecimalNat Numbers.DecimalZ.
From Stdlib Require Import Lists.List.
Import ListNotations.

Set Warnings "-register-all".

Local Open Scope string_scope.
Local Open Scope list_scope.
Local Open Scope Z_scope.

(* ================================================================= *)
(** ** Exceptions and outcomes *)

Inductive exn_kind : Type :=
| ValueError
| OSError
| JSONDecodeError
| PdfReadError
| RecursionError.

Record exn : Type := Exn { exn_kind_of : exn_kind; exn_msg : string }.

Inductive outcome (A : Type) : Type :=
| Ok (a : A)
| Err (e : exn).

Arguments Ok {A} a.
Arguments Err {A} e.

Definition rbind {A B : Type} (r : outcome A) (k : A -> outcome B)
  : outcome B :=
  match r with
  | Ok a => k a
  | Err e => Err e
  end.

Declare Scope outcome_scope.
Delimit Scope outcome_scope with outcome.
Notation "x <- r ;; k" := (rbind r (fun x => k))
  (at level 61, r at next level, right associativity) : outcome_scope.
Local Open Scope outcome_scope.

(* ================================================================= *)
(** ** Python primitives *)

Module Py.

(** [len(s)] *)
Definition len (s : string) : Z := Z.of_nat (String.length s).

(** Truthiness of a [str]: non-empty. *)
Definition truthy (s : string) : bool :=
  match s with
  | EmptyString => false
  | String _ _ => true
  end.

(** A bound of a slice, brought into [0 .. n]: a negative bound counts
    from the end. *)
Definition clamp_index (n i : Z) : Z :=
  if i <? 0 then Z.max 0 (i + n) else Z.min i n.

(** [s[lo:hi]] *)
Definition slice (s : string) (lo hi : Z) : string :=
  let n := len s in
  let l := clamp_index n lo in
  let h := clamp_index n hi in
  substring (Z.to_nat l) (Z.to_nat (h - l)) s.

(** [s[lo:]] *)
Definition slice_from (s : string) (lo : Z) : string :=
  slice s lo (len s).

(** Number of elements of [range(start, stop, step)], [step <> 0]. *)
Definition range_len (start stop step : Z) : Z :=
  if 0 <? step
  then (if start <? stop then (stop - start - 1) / step + 1 else 0)
  else (if stop <? start then (start - stop - 1) / (- step) + 1 else 0).

(** [range(start, stop, step)]; a zero step raises [ValueError]. *)
Definition range (start stop step : Z) : outcome (list Z) :=
  if step =? 0
  then Err (Exn ValueError "range() arg 3 must not be zero")
  else Ok (map (fun k => start + Z.of_nat k * step)
               (seq 0 (Z.to_nat (range_len start stop step)))).

(** [str.isspace] on one code point below 256. *)
Definition is_space (c : ascii) : bool :=
  let n := nat_of_ascii c in
  ((9 <=? n) && (n <=? 13) || (28 <=? n) && (n <=? 32)
   || (n =? 133) || (n =? 160))%nat.

Fixpoint lstrip (s : string) : string :=
  match s with
  | EmptyString => EmptyString
  | String c s' => if is_space c then lstrip s' else s
  end.

Fixpoint rstrip (s : string) : string :=
  match s with
  | EmptyString => EmptyString
  | String c s' =>
      match rstrip s' with
      | EmptyString => if is_space c then EmptyString else String c EmptyString
      | r => String c r
      end
  end.

(** [s.strip()] *)
Definition strip (s : string) : string := rstrip (lstrip s).

(** [str.lower] on one code point below 256. *)
Definition lower_char (c : ascii) : ascii :=
  let n := nat_of_ascii c in
  if ((65 <=? n) && (n <=? 90)
      || (192 <=? n) && (n <=? 222) && negb (n =? 215))%nat
  then ascii_of_nat (n + 32)
  else c.

Fixpoint lower (s : string) : string :=
  match s with
  | EmptyString => EmptyString
  | String c s' => String (lower_char c) (lower s')
  end.

(** [str(n)] for a natural number and for an integer. *)
Definition str_of_nat (n : nat) : string :=
  NilEmpty.string_of_uint (Nat.to_uint n).

Definition str_of_Z (z : Z) : string :=
  NilEmpty.string_of_int (Z.to_int z).

(** [s.rfind(c)]: the greatest index of [c] in [s], or [-1]. *)
Fixpoint rfind_from (c : ascii) (s : string) (i : Z) (found : Z) : Z :=
  match s with
  | EmptyString => found
  | String a s' => rfind_from c s' (i + 1) (if Ascii.eqb a c then i else found)
  end.

Definition rfind (c : ascii) (s : string) : Z := rfind_from c s 0 (-1).

(** [os.path.basename] (posixpath): what follows the last ["/"]. *)
Definition basename (p : string) : string :=
  slice_from p (rfind "/" p + 1).

(** The scan of [genericpath._splitext] over the leading dots of the
    file name: is there a character other than ["."] in
    [p[filenameIndex:dotIndex]]? *)
Fixpoint has_non_dot (s : string) : bool :=
  match s with
  | EmptyString => false
  | String c s' => if Ascii.eqb c "." then has_non_dot s' else true
  end.

(** [os.path.splitext(p)[1]] (posixpath). *)
Definition splitext_ext (p : string) : string :=
  let sepIndex := rfind "/" p in
  let dotIndex := rfind "." p in
  if (sepIndex <? dotIndex) && has_non_dot (slice p (sepIndex + 1) dotIndex)
  then slice_from p dotIndex
  else EmptyString.

(** [sep.join(parts)] *)
Definition join (sep : string) (parts : list string) : string :=
  String.concat sep parts.

End Py.

(* ================================================================= *)
(** ** Values, dictionaries and chunk records *)

(** The scalars of parsed JSON.  A float is carried by its [repr]: the
    code only ever formats it. *)
Inductive scalar : Type :=
| SNone
| SBool (b : bool)
| SInt (z : Z)
| SFloat (repr : string)
| SStr (s : string).

(** The values [json.load] produces, which are also the values stored in
    a metadata mapping.  [isinstance(v, (dict, list))] holds exactly of
    [VList] and [VDict]. *)
Inductive value : Type :=
| Scalar (s : scalar)
| VList (items : list value)
| VDict (items : list (string * value)).

Definition VInt (z : Z) : value := Scalar (SInt z).
Definition VStr (s : string) : value := Scalar (SStr s).

(** [str(v)] of a scalar, as an f-string formats it. *)
Definition str_of_scalar (v : scalar) : string :=
  match v with
  | SNone => "None"
  | SBool true => "True"
  | SBool false => "False"
  | SInt z => Py.str_of_Z z
  | SFloat repr => repr
  | SStr s => s
  end.

Section Dict.
Context {A : Type}.

Definition dict : Type := list (string * A).

(** [d.get(k)] *)
Fixpoint dict_get (d : dict) (k : string) : option A :=
  match d with
  | [] => None
  | (k', v) :: d' => if String.eqb k' k then Some v else dict_get d' k
  end.

(** [d.get(k, default)] *)
Definition dict_get_default (d : dict) (k : string) (default : A) : A :=
  match dict_get d k with
  | Some v => v
  | None => default
  end.

(** [d[k] = v]: an existing key keeps its place, a new key goes last. *)
Fixpoint dict_set (d : dict) (k : string) (v : A) : dict :=
  match d with
  | [] => [(k, v)]
  | (k', v') :: d' =>
      if String.eqb k' k then (k', v) :: d' else (k', v') :: dict_set d' k v
  end.

(** [d.update(other)] *)
Definition dict_update (d other : dict) : dict :=
  fold_left (fun acc kv => dict_set acc (fst kv) (snd kv)) other d.

Definition dict_keys (d : dict) : list string := map fst d.

Definition dict_has (d : dict) (k : string) : bool :=
  match dict_get d k with
  | Some _ => true
  | None => false
  end.

End Dict.

Arguments dict A : clear implicits.

(** A chunk record [{"text": ..., "metadata": {...}}]: every record the
    code builds has these two keys and no other. *)
Record chunk : Type := Chunk {
  text : string;
  metadata : dict value
}.

(* ================================================================= *)
(** ** The flattener *)

(** The loop [for key, value in obj.items()] of [flatten_json]; [result]
    is the mapping built so far and [flatten] the recursive call. *)
Definition flatten_dict_items (flatten : value -> string -> dict scalar)
    (prefix : string)
  : list (string * value) -> dict scalar -> dict scalar :=
  fix loop (items : list (string * value)) (result : dict scalar) :=
    match items with
    | [] => result
    | (key, v) :: rest =>
        let new_key :=
          if Py.truthy prefix then (prefix ++ "." ++ key)%string else key in
        match v with
        | Scalar s => loop rest (dict_set result new_key s)
        | _ => loop rest (dict_update result (flatten v new_key))
        end
    end.

(** The loop [for i, item in enumerate(obj)] of [flatten_json]. *)
Definition flatten_list_items (flatten : value -> string -> dict scalar)
    (prefix : string)
  : list value -> nat -> dict scalar -> dict scalar :=
  fix loop (items : list value) (i : nat) (result : dict scalar) :=
    match items with
    | [] => result
    | item :: rest =>
        let new_key := (prefix ++ "[" ++ Py.str_of_nat i ++ "]")%string in
        match item with
        | Scalar s => loop rest (S i) (dict_set result new_key s)
        | _ => loop rest (S i) (dict_update result (flatten item new_key))
        end
    end.

(** [flatten_json(obj, prefix)] *)
Fixpoint flatten_json (obj : value) (prefix : string) : dict scalar :=
  match obj with
  | VDict d => flatten_dict_items flatten_json prefix d []
  | VList l => flatten_list_items flatten_json prefix l 0%nat []
  | Scalar s => dict_set [] prefix s
  end.

(* ================================================================= *)
(** ** The re-chunker *)

(** The dictionary display of one sub-chunk: the record's metadata
    unpacked, then the three keys set. *)
Definition sub_chunk (item : chunk) (chunk_size overlap : Z)
    (i : Z) (chunk_num : Z) : chunk :=
  let t := text item in
  {| text := Py.slice t i (Z.min (i + chunk_size) (Py.len t));
     metadata :=
       dict_set
         (dict_set
            (dict_set (metadata item) "chunk" (VInt chunk_num))
            "total_chunks_from_original"
            (VInt ((Py.len t + chunk_size - 1) / (chunk_size - overlap))))
         "original_page"
         (dict_get_default (metadata item) "page" (VInt 1)) |}.

(** The inner [for i in range(...)] loop with its [break]; [chunks] is the
    list built so far. *)
Fixpoint window_loop (item : chunk) (chunk_size overlap : Z)
    (starts : list Z) (chunks : list chunk) : list chunk :=
  match starts with
  | [] => chunks
  | i :: rest =>
      if (0 <? i) && (Py.len (text item) <? i + chunk_size)
      then chunks
      else
        let chunk_num := Z.of_nat (List.length chunks) + 1 in
        window_loop item chunk_size overlap rest
          (chunks ++ [sub_chunk item chunk_size overlap i chunk_num])
  end.

(** What one record adds to [results]: the body of the outer loop. *)
Definition split_item (item : chunk) (chunk_size overlap : Z)
  : outcome (list chunk) :=
  if Py.len (text item) <=? chunk_size
  then Ok [item]
  else
    starts <- Py.range 0 (Py.len (text item)) (chunk_size - overlap) ;;
    Ok (window_loop item chunk_size overlap starts []).

(** The number of windows of [chunk_size] characters, one every
    [chunk_size - overlap], that fit wholly in the text of [item]. *)
Definition full_windows (item : chunk) (chunk_size overlap : Z) : nat :=
  Z.to_nat ((Py.len (text item) - chunk_size) / (chunk_size - overlap) + 1).

(** The outer [for item in texts] loop; [results] is the list built so
    far. *)
Fixpoint split_loop (texts : list chunk) (chunk_size overlap : Z)
    (results : list chunk) : outcome (list chunk) :=
  match texts with
  | [] => Ok results
  | item :: rest =>
      if Py.len (text item) <=? chunk_size
      then split_loop rest chunk_size overlap (results ++ [item])
      else
        starts <- Py.range 0 (Py.len (text item)) (chunk_size - overlap) ;;
        split_loop rest chunk_size overlap
          (results ++ window_loop item chunk_size overlap starts [])
  end.

Definition split_into_chunks (texts : list chunk) (chunk_size overlap : Z)
  : outcome (list chunk) :=
  split_loop texts chunk_size overlap [].

Definition default_chunk_size : Z := 1000.
Definition default_overlap : Z := 200.

(* ================================================================= *)
(** ** Logging, the file system and the monad of the pipeline *)

Inductive level : Type := INFO | WARNING | ERROR.

(** One call of the logger: a formatted message, or the traceback of the
    exception being handled ([logger.error(traceback.format_exc())]). *)
Inductive log_record : Type :=
| Log (lvl : level) (msg : string)
| LogTraceback (e : exn).

(** What is known of a file the run opened for writing: [open(path, 'w')]
    created it or emptied it and [json.dump] has not completed, or
    [json.dump] wrote the records and the file was closed. *)
Inductive file_state : Type :=
| Incomplete
| Holds (content : list chunk).

(** What a run leaves behind: the log, and the changes made to files, in
    order; the last entry for a path tells what the file now is.  The
    directories [os.makedirs] creates are not recorded. *)
Record state : Type := State {
  logs : list log_record;
  written : list (string * file_state)
}.

Definition initial_state : state := State [] [].

(** What the code reads from outside: the file system and the two parsers
    it imports.  [pdf_page_texts p] is [page.extract_text()] of each page of
    [PdfReader(p)], in order.  [open_for_writing p] is the outcome of
    [os.makedirs] on the directory of [p] followed by [open(p, 'w')], and
    [dump_json p chunks] that of [json.dump(chunks, f, indent=2)] followed
    by the close that ends the [with] block. *)
Record world : Type := World {
  path_exists : string -> bool;
  read_text : string -> outcome string;
  pdf_page_texts : string -> outcome (list string);
  json_load : string -> outcome value;
  open_for_writing : string -> outcome unit;
  dump_json : string -> list chunk -> outcome unit
}.

Definition M (A : Type) : Type := state -> state * outcome A.

Definition ret {A : Type} (a : A) : M A := fun st => (st, Ok a).

Definition raise {A : Type} (e : exn) : M A := fun st => (st, Err e).

Definition bind {A B : Type} (m : M A) (k : A -> M B) : M B :=
  fun st =>
    match m st with
    | (st', Ok a) => k a st'
    | (st', Err e) => (st', Err e)
    end.

Definition lift {A : Type} (r : outcome A) : M A := fun st => (st, r).

Definition log (lvl : level) (msg : string) : M unit :=
  fun st => (State (logs st ++ [Log lvl msg]) (written st), Ok tt).

(** The file at [path] has been created or emptied. *)
Definition file_opened (path : string) : M unit :=
  fun st => (State (logs st) (written st ++ [(path, Incomplete)]), Ok tt).

(** The file at [path] has been written in full and closed. *)
Definition file_dumped (path : string) (content : list chunk) : M unit :=
  fun st => (State (logs st) (written st ++ [(path, Holds content)]), Ok tt).

(** [try: body  except Exception as e: logger.error(f"{what}: {e}");
    logger.error(traceback.format_exc()); raise] *)
Definition logging_errors {A : Type} (what : string) (body : M A) : M A :=
  fun st =>
    match body st with
    | (st', Ok a) => (st', Ok a)
    | (st', Err e) =>
        (State (logs st' ++ [Log ERROR (what ++ ": " ++ exn_msg e)%string;
                             LogTraceback e])
               (written st'),
         Err e)
    end.

Declare Scope m_scope.
Delimit Scope m_scope with M.
Notation "x <- c ;; k" := (bind c (fun x => k))
  (at level 61, c at next level, right associativity) : m_scope.
Notation "c ;;; k" := (bind c (fun _ => k))
  (at level 61, right associativity) : m_scope.

Definition newline : string := String (ascii_of_nat 10) EmptyString.

(* ================================================================= *)
(** ** The extractors *)

(** [not text or len(text.strip()) == 0] *)
Definition no_text (t : string) : bool :=
  negb (Py.truthy t) || (Py.len (Py.strip t) =? 0).

Local Open Scope m_scope.

(** The loop over [enumerate(reader.pages)]; [i] is the index of the first
    page of [pages].  The source also binds [metadata] to
    [page.get_contents()] and never reads it: that store is left out. *)
Fixpoint pdf_loop (pdf_path : string) (num_pages : nat)
    (pages : list string) (i : nat) (results : list chunk)
  : M (list chunk) :=
  match pages with
  | [] => ret results
  | t :: rest =>
      let page_num := (i + 1)%nat in
      if no_text t
      then
        log WARNING ("Page " ++ Py.str_of_nat page_num
                     ++ " has no extractable text")%string ;;;
        pdf_loop pdf_path num_pages rest (S i) results
      else
        let chunk :=
          {| text := t;
             metadata :=
               [("source", VStr (Py.basename pdf_path));
                ("page", VInt (Z.of_nat page_num));
                ("total_pages", VInt (Z.of_nat num_pages));
                ("format", VStr "pdf")] |} in
        pdf_loop pdf_path num_pages rest (S i) (results ++ [chunk])
  end.

Definition extract_text_from_pdf (w : world) (pdf_path : string)
  : M (list chunk) :=
  logging_errors "Error processing PDF"
    (log INFO ("Processing PDF: " ++ pdf_path)%string ;;;
     pages <- lift (pdf_page_texts w pdf_path) ;;
     let num_pages := List.length pages in
     results <- pdf_loop pdf_path num_pages pages 0%nat [] ;;
     log INFO ("Successfully extracted text from "
               ++ Py.str_of_nat (List.length results) ++ " pages")%string ;;;
     ret results).

(** One slab of the text extractor, for the start index [i]. *)
Definition txt_chunk (txt_path : string) (t : string) (chunk_size : Z)
    (i : Z) : chunk :=
  {| text := Py.slice t i (i + chunk_size);
     metadata :=
       [("source", VStr (Py.basename txt_path));
        ("chunk", VInt (i / chunk_size + 1));
        ("total_chunks", VInt ((Py.len t + chunk_size - 1) / chunk_size));
        ("format", VStr "txt")] |}.

Definition extract_text_from_txt (w : world) (txt_path : string)
  : M (list chunk) :=
  logging_errors "Error processing TXT"
    (log INFO ("Processing TXT: " ++ txt_path)%string ;;;
     t <- lift (read_text w txt_path) ;;
     if no_text t
     then
       log WARNING "TXT file has no text content" ;;;
       ret []
     else
       let chunk_size := 1000 in
       starts <- lift (Py.range 0 (Py.len t) chunk_size) ;;
       let chunks := map (txt_chunk txt_path t chunk_size) starts in
       log INFO ("Successfully extracted "
                 ++ Py.str_of_nat (List.length chunks)
                 ++ " chunks from text file")%string ;;;
       ret chunks).

(** [json_content if isinstance(json_content, list) else [json_content]] *)
Definition json_items_of (json_content : value) : list value :=
  match json_content with
  | VList items => items
  | _ => [json_content]
  end.

(** ["\n".join([f"{k}: {v}" for k, v in flattened.items()])] *)
Definition render_flattened (flattened : dict scalar) : string :=
  Py.join newline
    (map (fun kv => (fst kv ++ ": " ++ str_of_scalar (snd kv))%string)
         flattened).

(** The record of item number [i] of [total_items]. *)
Definition json_chunk (json_path : string) (total_items : nat)
    (i : nat) (item : value) : chunk :=
  let flattened := flatten_json item "" in
  {| text := render_flattened flattened;
     metadata :=
       [("source", VStr (Py.basename json_path));
        ("item_index", VInt (Z.of_nat i));
        ("total_items", VInt (Z.of_nat total_items));
        ("format", VStr "json");
        ("original_item", item)] |}.

(** The loop over [enumerate(json_items)]. *)
Fixpoint json_loop (json_path : string) (total_items : nat)
    (items : list value) (i : nat) (chunks : list chunk) : list chunk :=
  match items with
  | [] => chunks
  | item :: rest =>
      json_loop json_path total_items rest (S i)
        (chunks ++ [json_chunk json_path total_items i item])
  end.

(** The source also binds [text] to [json.dumps(json_content, indent=2)]
    and never reads it: that store is left out. *)
Definition extract_text_from_json (w : world) (json_path : string)
  : M (list chunk) :=
  logging_errors "Error processing JSON"
    (log INFO ("Processing JSON: " ++ json_path)%string ;;;
     json_content <- lift (json_load w json_path) ;;
     let json_items := json_items_of json_content in
     let chunks :=
       json_loop json_path (List.length json_items) json_items 0%nat [] in
     log INFO ("Successfully extracted "
               ++ Py.str_of_nat (List.length chunks)
               ++ " chunks from JSON file")%string ;;;
     ret chunks).

(* ================================================================= *)
(** ** The orchestrator *)

(** [os.path.splitext(file_path)[1].lower()] *)
Definition file_ext_of (file_path : string) : string :=
  Py.lower (Py.splitext_ext file_path).

(** The dispatch on the extension. *)
Definition extract_by_extension (w : world) (file_path file_ext : string)
  : M (list chunk) :=
  if String.eqb file_ext ".pdf" then extract_text_from_pdf w file_path
  else if String.eqb file_ext ".txt" then extract_text_from_txt w file_path
  else if String.eqb file_ext ".json" then extract_text_from_json w file_path
  else
    log WARNING ("Unsupported file extension: " ++ file_ext
                 ++ ", treating as text")%string ;;;
    extract_text_from_txt w file_path.

(** [if output_path: ...]: [None] and the empty string are both false. *)
Definition save_output (w : world) (output_path : option string)
    (chunks : list chunk) : M unit :=
  match output_path with
  | Some p =>
      if Py.truthy p
      then
        lift (open_for_writing w p) ;;;
        file_opened p ;;;
        lift (dump_json w p chunks) ;;;
        file_dumped p chunks ;;;
        log INFO ("Saved output to " ++ p)%string
      else ret tt
  | None => ret tt
  end.

Definition process_document (w : world) (file_path : string)
    (output_path : option string) : M (list chunk) :=
  logging_errors "Error processing document"
    (if negb (path_exists w file_path)
     then raise (Exn ValueError ("File does not exist: " ++ file_path)%string)
     else
       let file_ext := file_ext_of file_path in
       log INFO ("Processing file with extension: " ++ file_ext)%string ;;;
       chunks <- extract_by_extension w file_path file_ext ;;
       chunks <- lift (split_into_chunks chunks
                         default_chunk_size default_overlap) ;;
       save_output w output_path chunks ;;;
       ret chunks).

Local Close Scope m_scope.

(* ================================================================= *)
(** ** Vocabulary of the statements *)

(** The ceiling of [a / b], for [0 < b]. *)
Definition ceiling_div (a b : Z) : Z := - ((- a) / b).

(** A text of [n] characters. *)
Definition text_of_length (n : nat) : string :=
  string_of_list_ascii (repeat "a"%char n).

(** How deeply lists and objects are nested in a value: 0 for a scalar. *)
Fixpoint nesting_depth (v : value) : nat :=
  match v with
  | Scalar _ => 0
  | VList l => S (list_max (map nesting_depth l))
  | VDict d => S (list_max (map (fun kv => nesting_depth (snd kv)) d))
  end.

(** [nest n v] wraps [v] in [n] one-element lists. *)
Fixpoint nest (n : nat) (v : value) : value :=
  match n with
  | O => v
  | S n' => VList [nest n' v]
  end.

(** The number of scalar leaves of a value. *)
Fixpoint leaf_count (v : value) : nat :=
  match v with
  | Scalar _ => 1
  | VList l => list_sum (map leaf_count l)
  | VDict d => list_sum (map (fun kv => leaf_count (snd kv)) d)
  end.

(** The key [flatten_json] gives to the member [key] of an object reached
    under [prefix], and to the element [i] of an array. *)
Definition member_key (prefix key : string) : string :=
  if Py.truthy prefix then (prefix ++ "." ++ key)%string else key.

Definition element_key (prefix : string) (i : nat) : string :=
  (prefix ++ "[" ++ Py.str_of_nat i ++ "]")%string.

(** The leaves of a value in pre-order, each with the key-path generated
    for it: the traversal of [flatten_json] with the entries listed one
    after the other instead of stored in a mapping. *)
Definition leaf_paths_dict_items
    (leaf_paths : value -> string -> list (string * scalar))
    (prefix : string)
  : list (string * value) -> list (string * scalar) :=
  fix go (items : list (string * value)) :=
    match items with
    | [] => []
    | (key, v) :: rest => leaf_paths v (member_key prefix key) ++ go rest
    end.

Definition leaf_paths_list_items
    (leaf_paths : value -> string -> list (string * scalar))
    (prefix : string)
  : list value -> nat -> list (string * scalar) :=
  fix go (items : list value) (i : nat) :=
    match items with
    | [] => []
    | item :: rest => leaf_paths item (element_key prefix i) ++ go rest (S i)
    end.

Fixpoint leaf_paths (obj : value) (prefix : string)
  : list (string * scalar) :=
  match obj with
  | VDict d => leaf_paths_dict_items leaf_paths prefix d
  | VList l => leaf_paths_list_items leaf_paths prefix l 0%nat
  | Scalar s => [(prefix, s)]
  end.

Fixpoint string_forallb (p : ascii -> bool) (s : string) : bool :=
  match s with
  | EmptyString => true
  | String c s' => p c && string_forallb p s'
  end.

(** The two characters that begin a segment of a key-path. *)
Definition is_path_sep (c : ascii) : bool :=
  Ascii.eqb c "." || Ascii.eqb c "[".

(** An object key that is not empty and holds neither ["."] nor ["["]. *)
Definition plain_key (k : string) : bool :=
  Py.truthy k && string_forallb (fun c => negb (is_path_sep c)) k.

Fixpoint distinct (l : list string) : bool :=
  match l with
  | [] => true
  | k :: l' => negb (existsb (String.eqb k) l') && distinct l'
  end.

(** Every object of the value has distinct keys, as a parsed object has,
    and all of them plain. *)
Fixpoint well_keyed (v : value) : bool :=
  match v with
  | Scalar _ => true
  | VList l => forallb well_keyed l
  | VDict d =>
      distinct (map fst d)
      && forallb (fun kv => plain_key (fst kv) && well_keyed (snd kv)) d
  end.

(** When the key-paths of the leaves are pairwise distinct, nothing is
    overwritten and the mapping is the list of leaves. *)
Definition flattens_to_leaves (obj : value) : Prop :=
  forall prefix,
    NoDup (dict_keys (leaf_paths obj prefix)) ->
    flatten_json obj prefix = leaf_paths obj prefix.

(** A key-path suffix: empty, or beginning a new segment. *)
Definition segment_start (suf : string) : Prop :=
  match suf with
  | EmptyString => True
  | String c _ => is_path_sep c = true
  end.

(** Under a non-empty prefix every key-path is the prefix followed by a
    suffix that is empty or begins a segment. *)
Definition extends_prefix (obj : value) : Prop :=
  forall p k,
    p <> EmptyString ->
    In k (dict_keys (leaf_paths obj p)) ->
    exists suf, k = (p ++ suf)%string /\ segment_start suf.

(** The key-paths generated for the leaves of a well-keyed value are
    pairwise distinct, under any prefix. *)
Definition distinct_paths (obj : value) : Prop :=
  well_keyed obj = true ->
  forall p, NoDup (dict_keys (leaf_paths obj p)).

(** Induction over values, with the hypothesis at every element of a list
    and at every member of an object. *)
Section ValueInduction.

Variable P : value -> Prop.
Hypothesis P_scalar : forall s, P (Scalar s).
Hypothesis P_list : forall l, Forall P l -> P (VList l).
Hypothesis P_dict : forall d, Forall (fun kv => P (snd kv)) d -> P (VDict d).

Fixpoint value_induction (v : value) : P v :=
  match v with
  | Scalar s => P_scalar s
  | VList l =>
      P_list l
        ((fix all (l : list value) : Forall P l :=
            match l with
            | [] => Forall_nil P
            | x :: r => Forall_cons x (value_induction x) (all r)
            end) l)
  | VDict d =>
      P_dict d
        ((fix all (d : list (string * value))
            : Forall (fun kv => P (snd kv)) d :=
            match d with
            | [] => Forall_nil _
            | kv :: r => Forall_cons kv (value_induction (snd kv)) (all r)
            end) d)
  end.

End ValueInduction.

(** The records [extract_text_from_txt] returns for a file whose content
    is [t]: none when [t] has no text, else one for each start index of
    [range(0, len(t), 1000)]. *)
Definition txt_chunks (txt_path t : string) : list chunk :=
  if no_text t then []
  else
    match Py.range 0 (Py.len t) 1000 with
    | Ok starts => map (txt_chunk txt_path t 1000) starts
    | Err _ => []
    end.

(** The text of a record is not empty once trimmed. *)
Definition has_text (c : chunk) : Prop := Py.strip (text c) <> EmptyString.

(** The value of [format] in a record's metadata. *)
Definition format_of (c : chunk) : option value :=
  dict_get (metadata c) "format".

(** A file system for the examples: every path exists, a text file reads
    ["hello"], a PDF has a page of text, a blank page and an empty one, and
    a JSON file holds the empty object. *)
Definition example_world : world :=
  {| path_exists := fun _ => true;
     read_text := fun _ => Ok "hello";
     pdf_page_texts := fun _ => Ok ["page one"; "   "; ""];
     json_load := fun _ => Ok (VDict []);
     open_for_writing := fun _ => Ok tt;
     dump_json := fun _ _ => Ok tt |}.

(** A computation keeps what is already in the log. *)
Definition keeps_log {A : Type} (m : M A) : Prop :=
  forall (st : state) (r : log_record),
    In r (logs st) -> In r (logs (fst (m st))).

(** Whether the output file, when one is asked for, can be written: the
    outcome of opening it and then of dumping the records into it. *)
Definition save_outcome (w : world) (output_path : option string)
    (chunks : list chunk) : outcome unit :=
  match output_path with
  | Some p =>
      if Py.truthy p
      then (_ <- open_for_writing w p ;; dump_json w p chunks)
      else Ok tt
  | None => Ok tt
  end.

(** The extensions with an extractor of their own. *)
Definition known_extension (file_ext : string) : bool :=
  String.eqb file_ext ".pdf" || String.eqb file_ext ".txt"
  || String.eqb file_ext ".json".

(** The warning logged for a file of another extension. *)
Definition unsupported_warning (file_ext : string) : log_record :=
  Log WARNING
    ("Unsupported file extension: " ++ file_ext ++ ", treating as text").

(* ================================================================= *)
(** ** The command line *)

(** [main()] once the arguments are parsed: the value handed to
    [json.dumps] and printed, and the exit status of the process, 1 after
    [sys.exit(1)]. *)
Definition main (w : world) (file_path : string) (output : option string)
  : state -> state * (dict value * Z) :=
  fun st =>
    match process_document w file_path output st with
    | (st', Ok chunks) =>
        (st',
         ([("status", VStr "success");
           ("chunk_count", VInt (Z.of_nat (List.length chunks)))],
          0))
    | (st', Err e) =>
        (st',
         ([("status", VStr "error"); ("error", VStr (exn_msg e))],
          1))
    end.

(* ================================================================= *)
(** ** Further vocabulary *)

(** What a record contributes when [0 <= overlap < chunk_size]: itself, or
    the sub-chunks of its full windows, numbered from 1. *)
Definition pieces (chunk_size overlap : Z) (item : chunk) : list chunk :=
  if Py.len (text item) <=? chunk_size
  then [item]
  else
    map (fun k => sub_chunk item chunk_size overlap
                    (Z.of_nat k * (chunk_size - overlap)) (Z.of_nat k + 1))
        (seq 0 (full_windows item chunk_size overlap)).

(** The keys the re-chunker sets on a sub-chunk. *)
Definition sub_chunk_key (k : string) : bool :=
  String.eqb k "chunk" || String.eqb k "total_chunks_from_original"
  || String.eqb k "original_page".

(** The record the PDF extractor builds for page number [page_num], of
    text [t], of a file of [num_pages] pages. *)
Definition pdf_chunk (pdf_path : string) (num_pages page_num : nat)
    (t : string) : chunk :=
  {| text := t;
     metadata :=
       [("source", VStr (Py.basename pdf_path));
        ("page", VInt (Z.of_nat page_num));
        ("total_pages", VInt (Z.of_nat num_pages));
        ("format", VStr "pdf")] |}.

(** The pages with their 0-based positions, from position [i] on. *)
Definition numbered {A : Type} (i : nat) (l : list A) : list (nat * A) :=
  combine (seq i (List.length l)) l.

(** The warning logged for a page without text. *)
Definition blank_page_warning (page_num : nat) : log_record :=
  Log WARNING ("Page " ++ Py.str_of_nat page_num
               ++ " has no extractable text").

(** A flat mapping read as a JSON object. *)
Definition as_object (d : dict scalar) : value :=
  VDict (map (fun kv => (fst kv, Scalar (snd kv))) d).

(** A computation writes no file. *)
Definition keeps_written {A : Type} (m : M A) : Prop :=
  forall st : state, written (fst (m st)) = written st.

(** The records the PDF extractor returns for the page texts [pages]. *)
Definition pdf_records (pdf_path : string) (pages : list string)
  : list chunk :=
  map (fun it => pdf_chunk pdf_path (List.length pages) (fst it + 1) (snd it))
      (filter (fun it => negb (no_text (snd it))) (numbered 0 pages)).

(** The records the JSON extractor returns for the parsed content. *)
Definition json_records (json_path : string) (json_content : value)
  : list chunk :=
  map (fun it => json_chunk json_path
                   (List.length (json_items_of json_content))
                   (fst it) (snd it))
      (numbered 0 (json_items_of json_content)).

(** What [process_document] does to files when it returns: the output
    file, when a path is given and is not empty, is opened and then holds
    the records. *)
Definition output_written (output_path : option string)
    (chunks : list chunk) : list (string * file_state) :=
  match output_path with
  | Some p => if Py.truthy p then [(p, Incomplete); (p, Holds chunks)] else []
  | None => []
  end.

(** The exception raised for a path that does not exist. *)
Definition missing_file (file_path : string) : exn :=
  Exn ValueError ("File does not exist: " ++ file_path).

(** The records of the extractor the extension selects, or the exception
    of the read or of the parse. *)
Definition extraction (w : world) (file_path file_ext : string)
  : outcome (list chunk) :=
  if String.eqb file_ext ".pdf"
  then (pages <- pdf_page_texts w file_path ;;
        Ok (pdf_records file_path pages))
  else if String.eqb file_ext ".json"
  then (json_content <- json_load w file_path ;;
        Ok (json_records file_path json_content))
  else (t <- read_text w file_path ;; Ok (txt_chunks file_path t)).

(** What a computation that ends in the saving of its records does to
    files.  When it returns, the output file holds the records returned;
    when it raises, either no file was touched, or the output file was
    opened and the dump of the records raised, which leaves it
    incomplete. *)
Definition writes_output (w : world) (output_path : option string)
    (m : M (list chunk)) : Prop :=
  forall st : state,
    (forall chunks : list chunk,
        snd (m st) = Ok chunks ->
        written (fst (m st))
        = written st ++ output_written output_path chunks) /\
    (forall e : exn,
        snd (m st) = Err e ->
        written (fst (m st)) = written st \/
        exists (p : string) (chunks : list chunk),
          output_path = Some p /\
          open_for_writing w p = Ok tt /\
          dump_json w p chunks = Err e /\
          written (fst (m st)) = written st ++ [(p, Incomplete)]).

(** A file system in which no path exists. *)
Definition empty_world : world :=
  {| path_exists := fun _ => false;
     read_text := fun _ => Err (Exn OSError "No such file or directory");
     pdf_page_texts :=
       fun _ => Err (Exn OSError "No such file or directory");
     json_load := fun _ => Err (Exn OSError "No such file or directory");
     open_for_writing := fun _ => Ok tt;
     dump_json := fun _ _ => Ok tt |}.

(** The key of a scalar under [n] one-element lists: [n] times ["[0]"]
    after the prefix. *)
Fixpoint nested_key (prefix : string) (n : nat) : string :=
  match n with
  | O => prefix
  | S n' => nested_key (prefix ++ "[0]") n'
  end.

(** A file system whose JSON files all parse to [json_content]. *)
Definition world_with_json (json_content : value) : world :=
  {| path_exists := fun _ => true;
     read_text := fun _ => Ok "";
     pdf_page_texts := fun _ => Ok [];
     json_load := fun _ => Ok json_content;
     open_for_writing := fun _ => Ok tt;
     dump_json := fun _ _ => Ok tt |}.

(** A file system in which the output file opens and the dump into it
    fails. *)
Definition failing_dump_world : world :=
  {| path_exists := fun _ => true;
     read_text := fun _ => Ok "hello";
     pdf_page_texts := fun _ => Ok [];
     json_load := fun _ => Ok (VDict []);
     open_for_writing := fun _ => Ok tt;
     dump_json :=
       fun _ _ => Err (Exn OSError "No space left on device") |}.
(* ================================================================= *)
(** ** Strings and slices *)

Section StringFacts.

Lemma substring_length_le (s : string) :
  forall n m, (String.length (substring n m s) <= m)%nat.
Proof.
  induction s as [|c s IH]; intros [|n] [|m]; simpl; try lia.
  - specialize (IH 0%nat m). lia.
  - apply IH.
  - apply IH.
Qed.

Lemma substring_length (s : string) :
  forall n m, (n + m <= String.length s)%nat ->
              String.length (substring n m s) = m.
Proof.
  induction s as [|c s IH]; intros [|n] [|m] H; simpl in *; try lia.
  - rewrite IH; lia.
  - apply IH; lia.
  - apply IH; lia.
Qed.

Lemma substring_prefix_substring (s : string) :
  forall b n m, (n + m <= b)%nat ->
                substring n m (substring 0 b s) = substring n m s.
Proof.
  induction s as [|c s IH]; intros [|b] [|n] [|m] H; simpl in *;
    try reflexivity; try lia.
  - f_equal. apply (IH b 0%nat m). lia.
  - apply IH. lia.
  - apply IH. lia.
Qed.

Lemma substring_substring (s : string) :
  forall a b n m, (n + m <= b)%nat ->
                  substring n m (substring a b s) = substring (a + n) m s.
Proof.
  induction s as [|c s IH]; intros [|a] b n m H.
  - destruct b, n, m; reflexivity.
  - destruct b, n, m; reflexivity.
  - apply substring_prefix_substring; assumption.
  - simpl. apply IH. assumption.
Qed.

Lemma slice_in_bounds (s : string) (lo hi : Z) :
  0 <= lo <= hi -> hi <= Py.len s ->
  Py.slice s lo hi = substring (Z.to_nat lo) (Z.to_nat (hi - lo)) s.
Proof.
  intros Hlo Hhi. unfold Py.slice, Py.clamp_index.
  destruct (Z.ltb_spec lo 0); [lia|].
  destruct (Z.ltb_spec hi 0); [lia|].
  rewrite !Z.min_l by lia. reflexivity.
Qed.

Lemma len_slice_in_bounds (s : string) (lo hi : Z) :
  0 <= lo <= hi -> hi <= Py.len s ->
  Py.len (Py.slice s lo hi) = hi - lo.
Proof.
  intros Hlo Hhi. rewrite slice_in_bounds by assumption.
  unfold Py.len in *. rewrite substring_length; lia.
Qed.

Lemma len_slice_le (s : string) (lo hi : Z) :
  0 <= lo -> 0 <= hi -> Py.len (Py.slice s lo hi) <= Z.max 0 (hi - lo).
Proof.
  intros Hlo Hhi. unfold Py.slice, Py.clamp_index.
  destruct (Z.ltb_spec lo 0); [lia|].
  set (l := Z.min lo (Py.len s)).
  destruct (Z.ltb_spec hi 0); [lia|].
  set (h := Z.min hi (Py.len s)).
  pose proof (substring_length_le s (Z.to_nat l) (Z.to_nat (h - l))) as Hle.
  unfold Py.len at 1.
  assert (h - l <= Z.max 0 (hi - lo)).
  { subst h l. unfold Py.len. lia. }
  lia.
Qed.

Lemma slice_slice (s : string) (a b x y : Z) :
  0 <= a -> b <= Py.len s -> 0 <= x <= y -> a + y <= b ->
  Py.slice (Py.slice s a b) x y = Py.slice s (a + x) (a + y).
Proof.
  intros Ha Hb Hx Hy.
  assert (Hlen : Py.len (Py.slice s a b) = b - a)
    by (apply len_slice_in_bounds; lia).
  rewrite (slice_in_bounds (Py.slice s a b)) by lia.
  rewrite (slice_in_bounds s a b) by lia.
  rewrite (slice_in_bounds s (a + x)) by lia.
  rewrite substring_substring by lia.
  f_equal; lia.
Qed.

End StringFacts.

(* ================================================================= *)
(** ** Dictionaries *)

Section DictFacts.
Context {A : Type}.
Implicit Types (d : dict A) (k : string) (v : A).

Lemma dict_get_set_same d k v : dict_get (dict_set d k v) k = Some v.
Proof.
  induction d as [|[k' v'] d IH]; simpl.
  - now rewrite String.eqb_refl.
  - destruct (String.eqb_spec k' k) as [->|Hne]; simpl.
    + now rewrite String.eqb_refl.
    + destruct (String.eqb_spec k' k); [contradiction|assumption].
Qed.

Lemma dict_get_set_other d k k' v :
  k' <> k -> dict_get (dict_set d k v) k' = dict_get d k'.
Proof.
  intros Hne. induction d as [|[k0 v0] d IH]; simpl.
  - destruct (String.eqb_spec k k'); [congruence|reflexivity].
  - destruct (String.eqb_spec k0 k) as [->|Hk]; simpl.
    + destruct (String.eqb_spec k k'); [congruence|reflexivity].
    + destruct (String.eqb_spec k0 k'); [reflexivity|assumption].
Qed.

Lemma dict_set_fresh d k v :
  ~ In k (dict_keys d) -> dict_set d k v = d ++ [(k, v)].
Proof.
  induction d as [|[k' v'] d IH]; simpl; intros Hk; [reflexivity|].
  destruct (String.eqb_spec k' k) as [->|Hne]; [tauto|].
  rewrite IH by tauto. reflexivity.
Qed.

End DictFacts.

(* ================================================================= *)
(** ** The re-chunker: structure of the two loops *)

Section Rechunker.

Variables (chunk_size overlap : Z).

Let step := chunk_size - overlap.

Lemma split_loop_cons item rest results :
  split_loop (item :: rest) chunk_size overlap results =
  (c <- split_item item chunk_size overlap ;;
   split_loop rest chunk_size overlap (results ++ c)).
Proof.
  unfold split_item. simpl.
  destruct (Py.len (text item) <=? chunk_size); [reflexivity|].
  destruct (Py.range _ _ _); reflexivity.
Qed.

Lemma split_loop_acc texts :
  forall results,
    split_loop texts chunk_size overlap results =
    (r <- split_loop texts chunk_size overlap [] ;; Ok (results ++ r)).
Proof.
  induction texts as [|item rest IH]; intros results.
  - simpl. now rewrite app_nil_r.
  - rewrite !split_loop_cons.
    destruct (split_item item chunk_size overlap) as [c|e]; simpl;
      [|reflexivity].
    rewrite (IH (results ++ c)), (IH c).
    destruct (split_loop rest chunk_size overlap []); simpl;
      [now rewrite app_assoc | reflexivity].
Qed.

Lemma split_into_chunks_cons item rest :
  split_into_chunks (item :: rest) chunk_size overlap =
  (c <- split_item item chunk_size overlap ;;
   r <- split_into_chunks rest chunk_size overlap ;;
   Ok (c ++ r)).
Proof.
  unfold split_into_chunks. rewrite split_loop_cons.
  destruct (split_item item chunk_size overlap) as [c|e]; simpl;
    [|reflexivity].
  apply split_loop_acc.
Qed.

Lemma split_into_chunks_app pre post :
  split_into_chunks (pre ++ post) chunk_size overlap =
  (o1 <- split_into_chunks pre chunk_size overlap ;;
   o2 <- split_into_chunks post chunk_size overlap ;;
   Ok (o1 ++ o2)).
Proof.
  induction pre as [|item pre IH].
  - cbn [app].
    change (split_into_chunks [] chunk_size overlap)
      with (@Ok (list chunk) []).
    cbn [rbind].
    destruct (split_into_chunks post chunk_size overlap); reflexivity.
  - rewrite <- app_comm_cons, !split_into_chunks_cons, IH.
    destruct (split_item item chunk_size overlap) as [c|e]; simpl;
      [|reflexivity].
    destruct (split_into_chunks pre chunk_size overlap) as [o1|e]; simpl;
      [|reflexivity].
    destruct (split_into_chunks post chunk_size overlap) as [o2|e]; simpl;
      [now rewrite app_assoc | reflexivity].
Qed.

Lemma split_into_chunks_around pre item post :
  split_into_chunks (pre ++ item :: post) chunk_size overlap =
  (o1 <- split_into_chunks pre chunk_size overlap ;;
   c <- split_item item chunk_size overlap ;;
   o2 <- split_into_chunks post chunk_size overlap ;;
   Ok (o1 ++ c ++ o2)).
Proof.
  rewrite split_into_chunks_app, split_into_chunks_cons.
  destruct (split_into_chunks pre chunk_size overlap); simpl;
    [|reflexivity].
  destruct (split_item item chunk_size overlap); simpl; [|reflexivity].
  destruct (split_into_chunks post chunk_size overlap); reflexivity.
Qed.

Lemma split_item_short item :
  Py.len (text item) <= chunk_size ->
  split_item item chunk_size overlap = Ok [item].
Proof.
  intros H. unfold split_item.
  destruct (Z.leb_spec (Py.len (text item)) chunk_size); [reflexivity|lia].
Qed.

Lemma split_into_chunks_all_short texts :
  Forall (fun item => Py.len (text item) <= chunk_size) texts ->
  split_into_chunks texts chunk_size overlap = Ok texts.
Proof.
  induction 1 as [|item rest Hshort _ IH]; [reflexivity|].
  rewrite split_into_chunks_cons, split_item_short, IH by assumption.
  reflexivity.
Qed.

(** A record that is split contributes nothing or an error only through
    [range]: with a non-zero step the call returns. *)
Lemma split_item_returns item :
  step <> 0 -> exists c, split_item item chunk_size overlap = Ok c.
Proof.
  intros Hstep. unfold split_item, Py.range. fold step.
  destruct (Py.len (text item) <=? chunk_size); [eauto|].
  destruct (Z.eqb_spec step 0); [contradiction|]. simpl. eauto.
Qed.

Lemma split_into_chunks_returns texts :
  step <> 0 -> exists out, split_into_chunks texts chunk_size overlap = Ok out.
Proof.
  intros Hstep. induction texts as [|item rest [out IH]].
  - exists []. reflexivity.
  - rewrite split_into_chunks_cons.
    destruct (split_item_returns item Hstep) as [c ->]. rewrite IH.
    simpl. eauto.
Qed.

(** *** The windows of a record that is split *)

Variable item : chunk.

Let n := Py.len (text item).

Let nw := full_windows item chunk_size overlap.

Hypothesis Hoverlap : 0 <= overlap < chunk_size.
Hypothesis Hlong : chunk_size < Py.len (text item).

Lemma fits_iff (k : nat) :
  (k < nw)%nat <-> Z.of_nat k * step + chunk_size <= n.
Proof.
  unfold nw, full_windows. fold step n.
  assert (Hs : 0 < step) by (unfold step; lia).
  assert (Hq : 0 <= (n - chunk_size) / step)
    by (apply Z.div_pos; unfold n; lia).
  pose proof (Z.mul_div_le (n - chunk_size) step Hs).
  pose proof (Z.mul_succ_div_gt (n - chunk_size) step Hs).
  split; intros Hk; nia.
Qed.

Lemma full_windows_le_range :
  (nw <= Z.to_nat (Py.range_len 0 n step))%nat.
Proof.
  assert (Hs : 0 < step) by (unfold step; lia).
  unfold Py.range_len.
  destruct (Z.ltb_spec 0 step); [|lia].
  destruct (Z.ltb_spec 0 n); [|unfold n in *; lia].
  unfold nw, full_windows. fold step n.
  apply Z2Nat.inj_le.
  - pose proof (Z.div_pos (n - chunk_size) step). unfold n in *. lia.
  - pose proof (Z.div_pos (n - 0 - 1) step). lia.
  - apply Z.add_le_mono_r. apply Z.div_le_mono; lia.
Qed.

Lemma window_loop_seq :
  forall m j acc,
    List.length acc = j ->
    window_loop item chunk_size overlap
      (map (fun k => Z.of_nat k * step) (seq j m)) acc =
    acc ++ map (fun k => sub_chunk item chunk_size overlap
                           (Z.of_nat k * step) (Z.of_nat k + 1))
               (seq j (Nat.min m (nw - j))).
Proof.
  induction m as [|m IH]; intros j acc Hj.
  - simpl. now rewrite app_nil_r.
  - simpl map at 1. cbn [window_loop].
    destruct (Nat.lt_ge_cases j nw) as [Hfit|Hout].
    + pose proof (proj1 (fits_iff j) Hfit) as Hle. fold n.
      replace (n <? Z.of_nat j * step + chunk_size) with false
        by (symmetry; apply Z.ltb_ge; lia).
      rewrite andb_false_r.
      rewrite IH by (rewrite length_app; simpl; lia).
      replace (nw - j)%nat with (S (nw - S j)) by lia.
      rewrite <- Nat.succ_min_distr. simpl seq. simpl map.
      rewrite <- app_assoc. simpl. rewrite Hj. reflexivity.
    + assert (Hk : ~ Z.of_nat j * step + chunk_size <= n)
        by (intros Hc; apply fits_iff in Hc; lia).
      assert (0 < Z.of_nat j * step) by (unfold step, n in *; nia).
      fold n.
      replace (0 <? Z.of_nat j * step) with true
        by (symmetry; apply Z.ltb_lt; lia).
      replace (n <? Z.of_nat j * step + chunk_size) with true
        by (symmetry; apply Z.ltb_lt; lia).
      replace (nw - j)%nat with 0%nat by lia.
      rewrite Nat.min_0_r. simpl. now rewrite app_nil_r.
Qed.

(** A record longer than [chunk_size] yields exactly its full windows,
    numbered from 1. *)
Lemma split_item_long :
  split_item item chunk_size overlap =
  Ok (map (fun k => sub_chunk item chunk_size overlap
                      (Z.of_nat k * step) (Z.of_nat k + 1))
          (seq 0 nw)).
Proof.
  unfold split_item, Py.range. fold step n.
  destruct (Z.leb_spec n chunk_size); [unfold n in *; lia|].
  destruct (Z.eqb_spec step 0); [unfold step in *; lia|].
  simpl. rewrite window_loop_seq by reflexivity.
  simpl. rewrite Nat.sub_0_r, Nat.min_r by apply full_windows_le_range.
  reflexivity.
Qed.

End Rechunker.

Lemma nth_error_map_seq {A : Type} (f : nat -> A) (n k : nat) (a : A) :
  nth_error (map f (seq 0 n)) k = Some a -> (k < n)%nat /\ a = f k.
Proof.
  intros H.
  assert (Hk : (k < n)%nat).
  { assert (Hn : nth_error (map f (seq 0 n)) k <> None) by congruence.
    apply nth_error_Some in Hn. now rewrite length_map, length_seq in Hn. }
  split; [assumption|].
  rewrite nth_error_map, nth_error_seq in H.
  destruct (Nat.ltb_spec k n); [|lia]. simpl in H. congruence.
Qed.

(* ================================================================= *)
(** ** Properties of the re-chunker *)

(** C1.  A record longer than [chunk_size], re-chunked with
    [0 <= overlap < chunk_size], contributes (in place, between what the
    records before and after it contribute) the sub-chunks of the windows
    starting at [0], [chunk_size - overlap], [2 * (chunk_size - overlap)],
    ...: window number [k] is emitted exactly when it fits wholly in the
    text, so a window that would run past the end is dropped and never
    emitted shorter; every emitted sub-chunk is the slice of its window and
    has length exactly [chunk_size]; and the last [overlap] characters of a
    sub-chunk are the first [overlap] characters of the next. *)
Theorem split_into_chunks_windows :
  forall (pre post : list chunk) (item : chunk) (chunk_size overlap : Z),
    0 <= overlap < chunk_size ->
    chunk_size < Py.len (text item) ->
    let step := chunk_size - overlap in
    exists o1 chunks o2,
      split_into_chunks pre chunk_size overlap = Ok o1 /\
      split_into_chunks post chunk_size overlap = Ok o2 /\
      split_into_chunks (pre ++ item :: post) chunk_size overlap
      = Ok (o1 ++ chunks ++ o2) /\
      (forall k : nat,
          (k < List.length chunks)%nat <->
          Z.of_nat k * step + chunk_size <= Py.len (text item)) /\
      (forall (k : nat) (c : chunk),
          nth_error chunks k = Some c ->
          text c = Py.slice (text item) (Z.of_nat k * step)
                     (Z.of_nat k * step + chunk_size) /\
          Py.len (text c) = chunk_size) /\
      (forall (k : nat) (c c' : chunk),
          nth_error chunks k = Some c ->
          nth_error chunks (S k) = Some c' ->
          Py.slice (text c) step chunk_size = Py.slice (text c') 0 overlap /\
          Py.len (Py.slice (text c') 0 overlap) = overlap).
Proof.
  intros pre post item chunk_size overlap Hov Hlong step.
  assert (Hstep : chunk_size - overlap <> 0) by lia.
  destruct (split_into_chunks_returns chunk_size overlap pre Hstep)
    as [o1 Ho1].
  destruct (split_into_chunks_returns chunk_size overlap post Hstep)
    as [o2 Ho2].
  pose proof (split_item_long chunk_size overlap item Hov Hlong) as Hitem.
  fold step in Hitem.
  set (nw := full_windows item chunk_size overlap) in *.
  set (mk := fun k : nat =>
               sub_chunk item chunk_size overlap
                 (Z.of_nat k * step) (Z.of_nat k + 1)) in *.
  assert (Hfit : forall k : nat,
             (k < nw)%nat <->
             Z.of_nat k * step + chunk_size <= Py.len (text item))
    by (intros k; apply fits_iff; assumption).
  assert (Htext : forall k : nat,
             (k < nw)%nat ->
             text (mk k) = Py.slice (text item) (Z.of_nat k * step)
                             (Z.of_nat k * step + chunk_size)).
  { intros k Hk. apply Hfit in Hk. unfold mk, sub_chunk. cbn [text].
    rewrite Z.min_l by lia. reflexivity. }
  exists o1, (map mk (seq 0 nw)), o2.
  split; [assumption|]. split; [assumption|]. split.
  { rewrite split_into_chunks_around, Ho1, Hitem, Ho2. reflexivity. }
  split.
  { intros k. rewrite length_map, length_seq. apply Hfit. }
  split.
  - intros k c Hc. apply nth_error_map_seq in Hc as [Hk ->].
    rewrite Htext by assumption. split; [reflexivity|].
    apply Hfit in Hk.
    rewrite len_slice_in_bounds; subst step; nia.
  - intros k c c' Hc Hc'.
    apply nth_error_map_seq in Hc as [Hk ->].
    apply nth_error_map_seq in Hc' as [Hk' ->].
    rewrite !Htext by assumption.
    apply Hfit in Hk, Hk'. rewrite Nat2Z.inj_succ in *.
    rewrite !slice_slice by (subst step; nia).
    split; [f_equal; subst step; lia|].
    rewrite len_slice_in_bounds; subst step; nia.
Qed.

Lemma split_into_chunks_windows_witness :
  0 <= 1 < 4 /\
  4 < Py.len (text (Chunk "abcdefghij" [])) /\
  exists o1 chunks o2 : list chunk,
    split_into_chunks [] 4 1 = Ok o1 /\
    split_into_chunks [] 4 1 = Ok o2 /\
    split_into_chunks ([] ++ Chunk "abcdefghij" [] :: []) 4 1
    = Ok (o1 ++ chunks ++ o2) /\
    (forall k : nat,
        (k < List.length chunks)%nat <->
        Z.of_nat k * (4 - 1) + 4 <= Py.len (text (Chunk "abcdefghij" []))) /\
    (forall (k : nat) (c : chunk),
        nth_error chunks k = Some c ->
        text c = Py.slice (text (Chunk "abcdefghij" []))
                   (Z.of_nat k * (4 - 1)) (Z.of_nat k * (4 - 1) + 4) /\
        Py.len (text c) = 4) /\
    (forall (k : nat) (c c' : chunk),
        nth_error chunks k = Some c ->
        nth_error chunks (S k) = Some c' ->
        Py.slice (text c) (4 - 1) 4 = Py.slice (text c') 0 1 /\
        Py.len (Py.slice (text c') 0 1) = 1).
Proof.
  split; [lia|]. split; [vm_compute; reflexivity|].
  apply (split_into_chunks_windows [] [] (Chunk "abcdefghij" []) 4 1).
  - lia.
  - vm_compute. reflexivity.
Defined.

(** C3.  A record whose text is no longer than [chunk_size] passes through
    the re-chunker as it is, whatever the overlap: re-chunking it alone
    returns it alone, and inside any list it stands, the same record with
    the same text and the same metadata, between what the records before
    and after it contribute. *)
Theorem split_into_chunks_passthrough :
  forall (pre post : list chunk) (item : chunk) (chunk_size overlap : Z),
    Py.len (text item) <= chunk_size ->
    split_into_chunks [item] chunk_size overlap = Ok [item] /\
    split_into_chunks (pre ++ item :: post) chunk_size overlap =
    (o1 <- split_into_chunks pre chunk_size overlap ;;
     o2 <- split_into_chunks post chunk_size overlap ;;
     Ok (o1 ++ item :: o2)).
Proof.
  intros pre post item chunk_size overlap Hshort. split.
  - rewrite split_into_chunks_cons, split_item_short by assumption.
    reflexivity.
  - rewrite split_into_chunks_around, split_item_short by assumption.
    reflexivity.
Qed.

Lemma split_into_chunks_passthrough_witness :
  Py.len (text (Chunk "abc" [("page", VInt 2)])) <= 3 /\
  split_into_chunks [Chunk "abc" [("page", VInt 2)]] 3 1
  = Ok [Chunk "abc" [("page", VInt 2)]].
Proof.
  split; [vm_compute; discriminate|].
  apply (proj1 (split_into_chunks_passthrough
                  [] [] (Chunk "abc" [("page", VInt 2)]) 3 1
                  ltac:(vm_compute; discriminate))).
Defined.

(** C2.  The code's [total_chunks_from_original] on a record of 1600
    characters with the default [chunk_size = 1000] and [overlap = 200]:
    the one sub-chunk carries 3, while the ceiling of [1600 / 800] is 2. *)
Theorem total_chunks_from_original_at_1600 :
  exists c : chunk,
    split_into_chunks [Chunk (text_of_length 1600) [("page", VInt 1)]]
      1000 200 = Ok [c] /\
    dict_get (metadata c) "total_chunks_from_original" = Some (VInt 3) /\
    ceiling_div (Py.len (text_of_length 1600)) (1000 - 200) = 2.
Proof.
  eexists. split; [vm_compute; reflexivity|].
  split; vm_compute; reflexivity.
Qed.

(** The value on the specification's own example: 2500 characters give 4,
    which is also the ceiling of [2500 / 800], and two sub-chunks. *)
Example total_chunks_from_original_at_2500 :
  exists c1 c2 : chunk,
    split_into_chunks [Chunk (text_of_length 2500) []] 1000 200
    = Ok [c1; c2] /\
    dict_get (metadata c1) "total_chunks_from_original" = Some (VInt 4) /\
    dict_get (metadata c2) "total_chunks_from_original" = Some (VInt 4) /\
    ceiling_div 2500 800 = 4.
Proof.
  do 2 eexists. split; [vm_compute; reflexivity|].
  repeat split; vm_compute; reflexivity.
Qed.

(** What the code stores in general: the floor of
    [(len(text) + chunk_size - 1) / (chunk_size - overlap)]. *)
Lemma sub_chunk_total_chunks item chunk_size overlap i chunk_num :
  dict_get (metadata (sub_chunk item chunk_size overlap i chunk_num))
    "total_chunks_from_original"
  = Some (VInt ((Py.len (text item) + chunk_size - 1)
                / (chunk_size - overlap))).
Proof.
  unfold sub_chunk. cbn [metadata].
  rewrite dict_get_set_other by discriminate.
  apply dict_get_set_same.
Qed.

(** With no overlap the stored value is the ceiling. *)
Lemma total_chunks_ceiling_without_overlap (n chunk_size : Z) :
  0 < chunk_size ->
  (n + chunk_size - 1) / (chunk_size - 0) = ceiling_div n chunk_size.
Proof.
  intros H. unfold ceiling_div. rewrite Z.sub_0_r.
  pose proof (Z.div_mod (n + chunk_size - 1) chunk_size ltac:(lia)).
  pose proof (Z.mod_pos_bound (n + chunk_size - 1) chunk_size H).
  pose proof (Z.div_mod (- n) chunk_size ltac:(lia)).
  pose proof (Z.mod_pos_bound (- n) chunk_size H).
  nia.
Qed.

(** C4, counterexample.  Two calls with [overlap >= chunk_size] that
    return normally: with [overlap > chunk_size] the long record is left
    out, and with [overlap = chunk_size] a short record passes through. *)
Lemma split_into_chunks_accepts_large_overlap :
  split_into_chunks [Chunk "abcdef" []] 3 5 = Ok [] /\
  split_into_chunks [Chunk "abc" []] 3 3 = Ok [Chunk "abc" []].
Proof. split; reflexivity. Qed.

Lemma split_item_negative_step item chunk_size overlap :
  chunk_size < overlap ->
  chunk_size < Py.len (text item) ->
  split_item item chunk_size overlap = Ok [].
Proof.
  intros Hneg Hlong. unfold split_item, Py.range, Py.range_len.
  destruct (Z.leb_spec (Py.len (text item)) chunk_size); [lia|].
  destruct (Z.eqb_spec (chunk_size - overlap) 0); [lia|].
  destruct (Z.ltb_spec 0 (chunk_size - overlap)); [lia|].
  destruct (Z.ltb_spec (Py.len (text item)) 0);
    [unfold Py.len in *; lia|].
  reflexivity.
Qed.

Lemma split_item_zero_step item chunk_size :
  chunk_size < Py.len (text item) ->
  split_item item chunk_size chunk_size
  = Err (Exn ValueError "range() arg 3 must not be zero").
Proof.
  intros Hlong. unfold split_item, Py.range.
  destruct (Z.leb_spec (Py.len (text item)) chunk_size); [lia|].
  rewrite Z.sub_diag. reflexivity.
Qed.

(** C4, as the code has it.  [split_into_chunks] does not compare
    [overlap] with [chunk_size].  When [overlap >= chunk_size]: records no
    longer than [chunk_size] pass through, so a list of such records is
    returned as it is; when [overlap > chunk_size] the call returns and
    every longer record contributes nothing; when [overlap = chunk_size]
    and some record is longer than [chunk_size], the call raises the
    [ValueError] of [range] for its zero step. *)
Theorem split_into_chunks_unchecked_overlap :
  forall (texts : list chunk) (chunk_size overlap : Z),
    chunk_size <= overlap ->
    (Forall (fun item => Py.len (text item) <= chunk_size) texts ->
     split_into_chunks texts chunk_size overlap = Ok texts) /\
    (chunk_size < overlap ->
     split_into_chunks texts chunk_size overlap
     = Ok (filter (fun item => Py.len (text item) <=? chunk_size) texts)) /\
    (chunk_size = overlap ->
     Exists (fun item => chunk_size < Py.len (text item)) texts ->
     split_into_chunks texts chunk_size overlap
     = Err (Exn ValueError "range() arg 3 must not be zero")).
Proof.
  intros texts chunk_size overlap Hle. repeat split.
  - apply split_into_chunks_all_short.
  - intros Hlt. induction texts as [|item rest IH]; [reflexivity|].
    rewrite split_into_chunks_cons, IH. cbn [filter].
    destruct (Z.leb_spec (Py.len (text item)) chunk_size).
    + rewrite split_item_short by assumption. reflexivity.
    + rewrite split_item_negative_step by assumption. reflexivity.
  - intros <-. induction 1 as [item rest Hlong|item rest _ IH].
    + rewrite split_into_chunks_cons, split_item_zero_step by assumption.
      reflexivity.
    + rewrite split_into_chunks_cons, IH.
      destruct (split_item item chunk_size chunk_size) as [c|e] eqn:Hitem;
        [reflexivity|].
      unfold split_item, Py.range in Hitem. rewrite Z.sub_diag in Hitem.
      destruct (Py.len (text item) <=? chunk_size); [discriminate|].
      simpl in Hitem |- *. congruence.
Qed.

Lemma split_into_chunks_unchecked_overlap_witness :
  3 <= 5 /\
  split_into_chunks [Chunk "abcdef" []; Chunk "ab" []] 3 5
  = Ok [Chunk "ab" []].
Proof.
  split; [lia|].
  apply (proj1 (proj2 (split_into_chunks_unchecked_overlap
                         [Chunk "abcdef" []; Chunk "ab" []] 3 5
                         ltac:(lia)))).
  lia.
Defined.

(* ================================================================= *)
(** ** The flattener *)

Lemma nesting_depth_nest (n : nat) (v : value) :
  nesting_depth (nest n v) = (n + nesting_depth v)%nat.
Proof.
  induction n as [|n IH]; simpl; [reflexivity|]. rewrite IH. lia.
Qed.

(** *** The flattened mapping and the list of leaves *)

Lemma dict_update_fresh {A : Type} (other : dict A) :
  forall d : dict A,
    NoDup (dict_keys (d ++ other)) -> dict_update d other = d ++ other.
Proof.
  unfold dict_update.
  induction other as [|[k v] other IH]; intros d Hnd; simpl.
  - now rewrite app_nil_r.
  - assert (Hfresh : ~ In k (dict_keys d)).
    { unfold dict_keys in *. rewrite map_app in Hnd. simpl in Hnd.
      apply NoDup_remove_2 in Hnd. rewrite in_app_iff in Hnd. tauto. }
    rewrite dict_set_fresh by assumption.
    rewrite IH; rewrite <- app_assoc; [reflexivity|assumption].
Qed.

Lemma dict_keys_app {A : Type} (d d' : dict A) :
  dict_keys (d ++ d') = dict_keys d ++ dict_keys d'.
Proof. apply map_app. Qed.

Lemma NoDup_app_inv {A : Type} (l1 l2 : list A) :
  NoDup (l1 ++ l2) -> NoDup l1 /\ NoDup l2.
Proof.
  intros H. split;
    [eapply NoDup_app_remove_r | eapply NoDup_app_remove_l]; eassumption.
Qed.

Lemma flatten_list_items_leaves prefix items :
  Forall flattens_to_leaves items ->
  forall i result,
    NoDup (dict_keys
             (result ++ leaf_paths_list_items leaf_paths prefix items i)) ->
    flatten_list_items flatten_json prefix items i result
    = result ++ leaf_paths_list_items leaf_paths prefix items i.
Proof.
  induction 1 as [|c rest Hc _ IH]; intros i result Hnd;
    cbn [flatten_list_items leaf_paths_list_items] in *.
  - now rewrite app_nil_r.
  - fold (element_key prefix i).
    rewrite app_assoc in Hnd.
    assert (Hsub : dict_update result (flatten_json c (element_key prefix i))
                   = result ++ leaf_paths c (element_key prefix i)).
    { rewrite dict_keys_app in Hnd. apply NoDup_app_inv in Hnd as [Hnd _].
      rewrite Hc.
      - now apply dict_update_fresh.
      - rewrite dict_keys_app in Hnd. now apply NoDup_app_inv in Hnd. }
    destruct c as [s|l|d].
    + cbn [leaf_paths] in *. rewrite dict_set_fresh.
      * rewrite IH by assumption. now rewrite <- app_assoc.
      * rewrite !dict_keys_app in Hnd. apply NoDup_app_inv in Hnd as [Hnd _].
        simpl in Hnd. apply NoDup_remove_2 in Hnd.
        now rewrite app_nil_r in Hnd.
    + rewrite Hsub, IH by assumption. now rewrite <- app_assoc.
    + rewrite Hsub, IH by assumption. now rewrite <- app_assoc.
Qed.

Lemma flatten_dict_items_leaves prefix items :
  Forall (fun kv => flattens_to_leaves (snd kv)) items ->
  forall result,
    NoDup (dict_keys
             (result ++ leaf_paths_dict_items leaf_paths prefix items)) ->
    flatten_dict_items flatten_json prefix items result
    = result ++ leaf_paths_dict_items leaf_paths prefix items.
Proof.
  induction 1 as [|[key c] rest Hc _ IH]; intros result Hnd;
    cbn [flatten_dict_items leaf_paths_dict_items snd] in *.
  - now rewrite app_nil_r.
  - fold (member_key prefix key).
    rewrite app_assoc in Hnd.
    assert (Hsub : dict_update result (flatten_json c (member_key prefix key))
                   = result ++ leaf_paths c (member_key prefix key)).
    { rewrite dict_keys_app in Hnd. apply NoDup_app_inv in Hnd as [Hnd _].
      rewrite Hc.
      - now apply dict_update_fresh.
      - rewrite dict_keys_app in Hnd. now apply NoDup_app_inv in Hnd. }
    destruct c as [s|l|d].
    + cbn [leaf_paths] in *. rewrite dict_set_fresh.
      * rewrite IH by assumption. now rewrite <- app_assoc.
      * rewrite !dict_keys_app in Hnd. apply NoDup_app_inv in Hnd as [Hnd _].
        simpl in Hnd. apply NoDup_remove_2 in Hnd.
        now rewrite app_nil_r in Hnd.
    + rewrite Hsub, IH by assumption. now rewrite <- app_assoc.
    + rewrite Hsub, IH by assumption. now rewrite <- app_assoc.
Qed.

Lemma flatten_json_leaves (obj : value) : flattens_to_leaves obj.
Proof.
  induction obj as [s|l IH|d IH] using value_induction; intros prefix Hnd.
  - reflexivity.
  - cbn [flatten_json leaf_paths] in *.
    now rewrite flatten_list_items_leaves.
  - cbn [flatten_json leaf_paths] in *.
    now rewrite flatten_dict_items_leaves.
Qed.

Lemma length_leaf_paths (obj : value) :
  forall prefix, List.length (leaf_paths obj prefix) = leaf_count obj.
Proof.
  induction obj as [s|l IH|d IH] using value_induction; intros prefix.
  - reflexivity.
  - cbn [leaf_paths leaf_count]. generalize 0%nat.
    induction IH as [|c rest Hc _ IHrest]; intros i; [reflexivity|].
    cbn [leaf_paths_list_items map list_sum fold_right].
    rewrite length_app, Hc, IHrest. reflexivity.
  - cbn [leaf_paths leaf_count].
    induction IH as [|[key c] rest Hc _ IHrest]; [reflexivity|].
    cbn [leaf_paths_dict_items map list_sum fold_right snd] in *.
    rewrite length_app, Hc, IHrest. reflexivity.
Qed.

(** *** Key-paths of distinct leaves *)

Lemma append_assoc (a b c : string) :
  ((a ++ b) ++ c)%string = (a ++ (b ++ c))%string.
Proof. induction a as [|x a IH]; simpl; [reflexivity|now rewrite IH]. Qed.

Lemma append_cancel_l (p a b : string) :
  (p ++ a)%string = (p ++ b)%string -> a = b.
Proof.
  induction p as [|x p IH]; simpl; intros H; [assumption|].
  injection H as H. now apply IH.
Qed.

Lemma append_nonempty_l (a b : string) :
  a <> EmptyString -> (a ++ b)%string <> EmptyString.
Proof. destruct a; [contradiction|discriminate]. Qed.

(** Where a run of characters without [sep] ends and a suffix that is
    empty or begins with a [sep] starts is determined by the whole. *)
Lemma split_at_separator (sep : ascii -> bool) (u : string) :
  forall v x y : string,
    string_forallb (fun c => negb (sep c)) u = true ->
    string_forallb (fun c => negb (sep c)) v = true ->
    match x with String c _ => sep c = true | EmptyString => True end ->
    match y with String c _ => sep c = true | EmptyString => True end ->
    (u ++ x)%string = (v ++ y)%string ->
    u = v.
Proof.
  induction u as [|a u IH]; intros [|b v] x y Hu Hv Hx Hy Heq; simpl in *.
  - reflexivity.
  - subst x. apply andb_prop in Hv as [Hb _]. rewrite Hx in Hb. discriminate.
  - subst y. apply andb_prop in Hu as [Ha _]. rewrite Hy in Ha. discriminate.
  - injection Heq as -> Heq.
    apply andb_prop in Hu as [_ Hu]. apply andb_prop in Hv as [_ Hv].
    f_equal. apply (IH v x y); assumption.
Qed.

Lemma string_of_uint_digits (d : Decimal.uint) :
  string_forallb (fun c => negb (Ascii.eqb c "]"))
    (NilEmpty.string_of_uint d) = true.
Proof. induction d; cbn; auto. Qed.

Lemma str_of_nat_inj (i j : nat) : Py.str_of_nat i = Py.str_of_nat j -> i = j.
Proof.
  unfold Py.str_of_nat. intros H.
  apply Unsigned.to_uint_inj.
  pose proof (NilEmpty.usu (Nat.to_uint i)) as Hi.
  pose proof (NilEmpty.usu (Nat.to_uint j)) as Hj.
  congruence.
Qed.

Lemma element_key_inj (p : string) (i j : nat) (suf suf' : string) :
  (element_key p i ++ suf)%string = (element_key p j ++ suf')%string ->
  i = j.
Proof.
  unfold element_key. rewrite !append_assoc. intros H.
  apply append_cancel_l in H. simpl in H. injection H as H.
  apply str_of_nat_inj.
  apply (split_at_separator (fun c => Ascii.eqb c "]") _ _
           (String "]" suf) (String "]" suf')
           (string_of_uint_digits _) (string_of_uint_digits _)
           eq_refl eq_refl H).
Qed.

Lemma plain_key_nonempty (key : string) :
  plain_key key = true -> key <> EmptyString.
Proof. destruct key; [discriminate|discriminate]. Qed.

Lemma member_key_inj (p key key' suf suf' : string) :
  plain_key key = true -> plain_key key' = true ->
  segment_start suf -> segment_start suf' ->
  (member_key p key ++ suf)%string = (member_key p key' ++ suf')%string ->
  key = key'.
Proof.
  unfold plain_key, member_key.
  intros Hk Hk' Hs Hs' H.
  apply andb_prop in Hk as [_ Hk]. apply andb_prop in Hk' as [_ Hk'].
  destruct (Py.truthy p).
  - rewrite !append_assoc in H. apply append_cancel_l in H.
    simpl in H. injection H as H.
    exact (split_at_separator is_path_sep _ _ _ _ Hk Hk' Hs Hs' H).
  - exact (split_at_separator is_path_sep _ _ _ _ Hk Hk' Hs Hs' H).
Qed.

Lemma element_key_nonempty (p : string) (i : nat) :
  element_key p i <> EmptyString.
Proof. unfold element_key. destruct p; discriminate. Qed.

Lemma member_key_nonempty (p key : string) :
  p <> EmptyString \/ key <> EmptyString ->
  member_key p key <> EmptyString.
Proof.
  unfold member_key. destruct p as [|c p]; simpl; [|discriminate].
  intros [H|H]; [contradiction|assumption].
Qed.


Lemma append_empty_r (s : string) : (s ++ "")%string = s.
Proof. induction s as [|c s IH]; simpl; [reflexivity|now rewrite IH]. Qed.

Lemma leaf_paths_list_items_keys (p : string) (items : list value) :
  Forall extends_prefix items ->
  forall (i : nat) (k : string),
    In k (dict_keys (leaf_paths_list_items leaf_paths p items i)) ->
    exists (j : nat) (suf : string),
      (i <= j)%nat /\ k = (element_key p j ++ suf)%string /\
      segment_start suf.
Proof.
  induction 1 as [|c rest Hc _ IH]; intros i k Hin;
    cbn [leaf_paths_list_items] in Hin; [contradiction|].
  rewrite dict_keys_app, in_app_iff in Hin. destruct Hin as [Hin|Hin].
  - apply Hc in Hin as (suf & -> & Hsuf); [|apply element_key_nonempty].
    exists i, suf. auto.
  - apply IH in Hin as (j & suf & Hj & -> & Hsuf).
    exists j, suf. split; [lia|auto].
Qed.

Lemma leaf_paths_dict_items_keys (p : string)
    (items : list (string * value)) :
  p <> EmptyString \/ Forall (fun kv => fst kv <> EmptyString) items ->
  Forall (fun kv => extends_prefix (snd kv)) items ->
  forall k : string,
    In k (dict_keys (leaf_paths_dict_items leaf_paths p items)) ->
    exists key suf : string,
      In key (map fst items) /\ k = (member_key p key ++ suf)%string /\
      segment_start suf.
Proof.
  intros Hne Hall. induction Hall as [|[key c] rest Hc _ IH]; intros k Hin;
    cbn [leaf_paths_dict_items] in Hin; [contradiction|].
  rewrite dict_keys_app, in_app_iff in Hin. destruct Hin as [Hin|Hin].
  - apply Hc in Hin as (suf & -> & Hsuf).
    + exists key, suf. simpl. auto.
    + apply member_key_nonempty.
      destruct Hne as [Hp|Hkeys]; [now left|right].
      now apply Forall_inv in Hkeys.
  - apply IH in Hin as (key' & suf & Hkey' & -> & Hsuf).
    + exists key', suf. simpl. auto.
    + destruct Hne as [Hp|Hkeys]; [now left|right].
      now apply Forall_inv_tail in Hkeys.
Qed.

Lemma leaf_paths_extends (obj : value) : extends_prefix obj.
Proof.
  induction obj as [s|l IH|d IH] using value_induction; intros p k Hp Hin.
  - simpl in Hin. destruct Hin as [<-|[]].
    exists EmptyString. now rewrite append_empty_r.
  - cbn [leaf_paths] in Hin.
    apply (leaf_paths_list_items_keys p l IH) in Hin
      as (j & suf & _ & -> & _).
    unfold element_key. rewrite append_assoc.
    eexists. split; [reflexivity|]. reflexivity.
  - cbn [leaf_paths] in Hin.
    apply (leaf_paths_dict_items_keys p d (or_introl Hp) IH) in Hin
      as (key & suf & _ & -> & _).
    unfold member_key. destruct p as [|c p]; [contradiction|].
    cbn [Py.truthy]. rewrite append_assoc.
    eexists. split; [reflexivity|]. reflexivity.
Qed.

Lemma distinct_cons (k : string) (l : list string) :
  distinct (k :: l) = true -> ~ In k l /\ distinct l = true.
Proof.
  simpl. intros H. apply andb_prop in H as [Hk Hl]. split; [|assumption].
  intros Hin. apply negb_true_iff in Hk.
  assert (existsb (String.eqb k) l = true)
    by (apply existsb_exists; exists k; split;
        [assumption|apply String.eqb_refl]).
  congruence.
Qed.

Lemma leaf_paths_list_items_distinct (p : string) (items : list value) :
  Forall distinct_paths items ->
  forallb well_keyed items = true ->
  forall i : nat,
    NoDup (dict_keys (leaf_paths_list_items leaf_paths p items i)).
Proof.
  induction 1 as [|c rest Hc Hrest IH]; intros Hwk i;
    cbn [leaf_paths_list_items]; [constructor|].
  simpl in Hwk. apply andb_prop in Hwk as [Hwc Hwrest].
  rewrite dict_keys_app. apply NoDup_app.
  - now apply Hc.
  - now apply IH.
  - intros k Hk Hk'.
    apply leaf_paths_extends in Hk as (suf & -> & _);
      [|apply element_key_nonempty].
    apply leaf_paths_list_items_keys in Hk' as (j & suf' & Hj & Heq & _).
    + apply element_key_inj in Heq. lia.
    + apply Forall_forall. intros x _. apply leaf_paths_extends.
Qed.

Lemma leaf_paths_dict_items_distinct (p : string)
    (items : list (string * value)) :
  Forall (fun kv => distinct_paths (snd kv)) items ->
  distinct (map fst items) = true ->
  forallb (fun kv => plain_key (fst kv) && well_keyed (snd kv)) items
  = true ->
  NoDup (dict_keys (leaf_paths_dict_items leaf_paths p items)).
Proof.
  induction 1 as [|[key c] rest Hc Hrest IH]; intros Hdist Hwk;
    cbn [leaf_paths_dict_items]; [constructor|].
  cbn [map fst] in Hdist. apply distinct_cons in Hdist as [Hfresh Hdist].
  simpl in Hwk. apply andb_prop in Hwk as [Hwc Hwrest].
  apply andb_prop in Hwc as [Hplain Hwc].
  assert (Hplains : Forall (fun kv => plain_key (fst kv) = true) rest).
  { apply Forall_forall. intros kv Hkv.
    rewrite forallb_forall in Hwrest. apply Hwrest in Hkv.
    now apply andb_prop in Hkv as [Hkv _]. }
  rewrite dict_keys_app. apply NoDup_app.
  - now apply Hc.
  - now apply IH.
  - intros k Hk Hk'.
    apply leaf_paths_extends in Hk as (suf & -> & Hsuf).
    2: { apply member_key_nonempty. right.
         now apply plain_key_nonempty. }
    apply leaf_paths_dict_items_keys in Hk'
      as (key' & suf' & Hkey' & Heq & Hsuf').
    + apply member_key_inj in Heq; try assumption.
      * congruence.
      * apply in_map_iff in Hkey' as ([k0 v0] & <- & Hin0).
        rewrite Forall_forall in Hplains. now apply (Hplains (k0, v0)).
    + right. eapply Forall_impl; [|exact Hplains].
      intros kv. apply plain_key_nonempty.
    + apply Forall_forall. intros x _. apply leaf_paths_extends.
Qed.

Lemma leaf_paths_distinct (obj : value) : distinct_paths obj.
Proof.
  induction obj as [s|l IH|d IH] using value_induction; intros Hwk p.
  - simpl. repeat constructor. intros [].
  - cbn [leaf_paths]. now apply leaf_paths_list_items_distinct.
  - cbn [leaf_paths]. simpl in Hwk. apply andb_prop in Hwk as [Hd Hwk].
    now apply leaf_paths_dict_items_distinct.
Qed.

(** C7, counterexample.  An object with the member ["a.b"] and, in the
    object of its member ["a"], the member ["b"]: the two leaves generate
    the same key-path, and the mapping keeps one entry for the two. *)
Lemma flatten_json_key_collision :
  distinct (map fst [("a.b", VInt 1); ("a", VDict [("b", VInt 2)])]) = true /\
  leaf_paths (VDict [("a.b", VInt 1); ("a", VDict [("b", VInt 2)])]) ""
  = [("a.b", SInt 1); ("a.b", SInt 2)] /\
  leaf_count (VDict [("a.b", VInt 1); ("a", VDict [("b", VInt 2)])]) = 2%nat /\
  flatten_json (VDict [("a.b", VInt 1); ("a", VDict [("b", VInt 2)])]) ""
  = [("a.b", SInt 2)].
Proof. repeat split; reflexivity. Qed.

(** C7, as the code has it.  For a value whose object keys are not empty
    and hold neither ["."] nor ["["], objects having distinct keys, the
    key-paths generated for its leaves are pairwise distinct, so the
    flattened mapping is the list of the leaves in pre-order, each under
    its key-path, and has one entry for each leaf. *)
Theorem flatten_json_one_entry_per_leaf :
  forall (obj : value) (prefix : string),
    well_keyed obj = true ->
    NoDup (dict_keys (leaf_paths obj prefix)) /\
    flatten_json obj prefix = leaf_paths obj prefix /\
    List.length (flatten_json obj prefix) = leaf_count obj.
Proof.
  intros obj prefix Hwk.
  pose proof (leaf_paths_distinct obj Hwk prefix) as Hnd.
  pose proof (flatten_json_leaves obj prefix Hnd) as Heq.
  split; [assumption|]. split; [assumption|].
  rewrite Heq. apply length_leaf_paths.
Qed.

Lemma flatten_json_one_entry_per_leaf_witness :
  well_keyed
    (VDict [("a", VDict [("b", VInt 1)]); ("c", VList [VInt 2; VInt 3])])
  = true /\
  List.length
    (flatten_json
       (VDict [("a", VDict [("b", VInt 1)]); ("c", VList [VInt 2; VInt 3])])
       "")
  = 3%nat.
Proof.
  split; [reflexivity|].
  apply (proj2 (proj2 (flatten_json_one_entry_per_leaf
                         (VDict [("a", VDict [("b", VInt 1)]);
                                 ("c", VList [VInt 2; VInt 3])])
                         "" eq_refl))).
Defined.

(* ================================================================= *)
(** ** The monad of the pipeline *)

Section MonadFacts.

Context {A B : Type}.

Lemma snd_bind (m : M A) (k : A -> M B) (st : state) :
  snd (bind m k st) =
  match snd (m st) with
  | Ok a => snd (k a (fst (m st)))
  | Err e => Err e
  end.
Proof. unfold bind. destruct (m st) as [st' [a|e]]; reflexivity. Qed.

Lemma fst_bind_ok (m : M A) (k : A -> M B) (st : state) (a : A) :
  snd (m st) = Ok a -> fst (bind m k st) = fst (k a (fst (m st))).
Proof.
  unfold bind. destruct (m st) as [st' [a'|e]]; simpl; intros H;
    [now injection H as ->|discriminate].
Qed.

Lemma snd_logging_errors (what : string) (body : M A) (st : state) :
  snd (logging_errors what body st) = snd (body st).
Proof.
  unfold logging_errors. destruct (body st) as [st' [a|e]]; reflexivity.
Qed.

Lemma fst_logging_errors_ok (what : string) (body : M A) (st : state)
    (a : A) :
  snd (body st) = Ok a ->
  fst (logging_errors what body st) = fst (body st).
Proof.
  unfold logging_errors. destruct (body st) as [st' [a'|e]]; simpl;
    intros H; [reflexivity|discriminate].
Qed.

Lemma keeps_log_bind (m : M A) (k : A -> M B) :
  keeps_log m -> (forall a, keeps_log (k a)) -> keeps_log (bind m k).
Proof.
  intros Hm Hk st r Hin. unfold bind.
  specialize (Hm st r Hin).
  destruct (m st) as [st' [a|e]]; simpl in *; [now apply Hk|assumption].
Qed.

Lemma keeps_log_logging_errors (what : string) (body : M A) :
  keeps_log body -> keeps_log (logging_errors what body).
Proof.
  intros Hb st r Hin. unfold logging_errors.
  specialize (Hb st r Hin).
  destruct (body st) as [st' [a|e]]; simpl in *; [assumption|].
  apply in_app_iff. now left.
Qed.

Lemma keeps_log_ret (a : A) : keeps_log (ret a).
Proof. intros st r Hin. exact Hin. Qed.

Lemma keeps_log_raise (e : exn) : keeps_log (@raise A e).
Proof. intros st r Hin. exact Hin. Qed.

Lemma keeps_log_lift (o : outcome A) : keeps_log (lift o).
Proof. intros st r Hin. exact Hin. Qed.

End MonadFacts.

Lemma keeps_log_log (lvl : level) (msg : string) : keeps_log (log lvl msg).
Proof. intros st r Hin. simpl. apply in_app_iff. now left. Qed.

Lemma keeps_log_file_opened (p : string) : keeps_log (file_opened p).
Proof. intros st r Hin. exact Hin. Qed.

Lemma keeps_log_file_dumped (p : string) (content : list chunk) :
  keeps_log (file_dumped p content).
Proof. intros st r Hin. exact Hin. Qed.

Lemma log_logged (lvl : level) (msg : string) (st : state) :
  In (Log lvl msg) (logs (fst (log lvl msg st))).
Proof. simpl. apply in_app_iff. right. now left. Qed.

Create HintDb keeps_log.

#[local] Hint Resolve keeps_log_bind keeps_log_logging_errors keeps_log_ret
  keeps_log_raise keeps_log_lift keeps_log_log keeps_log_file_opened
  keeps_log_file_dumped
  : keeps_log.

(* ================================================================= *)
(** ** The text extractor *)

Lemma range_from_zero_by_1000 (n : Z) :
  Py.range 0 n 1000 =
  Ok (map (fun k => 0 + Z.of_nat k * 1000)
          (seq 0 (Z.to_nat (Py.range_len 0 n 1000)))).
Proof. reflexivity. Qed.

Lemma extract_text_from_txt_result (w : world) (p : string) (st : state) :
  snd (extract_text_from_txt w p st) =
  (t <- read_text w p ;; Ok (txt_chunks p t)).
Proof.
  unfold extract_text_from_txt, txt_chunks.
  rewrite snd_logging_errors, snd_bind. cbn [log snd fst].
  rewrite snd_bind. cbn [lift snd fst].
  destruct (read_text w p) as [t|e]; cbn [rbind]; [|reflexivity].
  destruct (no_text t).
  - rewrite snd_bind. reflexivity.
  - rewrite range_from_zero_by_1000.
    rewrite snd_bind. cbn [lift snd fst]. rewrite snd_bind. reflexivity.
Qed.

Lemma keeps_log_extract_text_from_txt (w : world) (p : string) :
  keeps_log (extract_text_from_txt w p).
Proof.
  unfold extract_text_from_txt.
  apply keeps_log_logging_errors, keeps_log_bind; auto with keeps_log.
  intros _. apply keeps_log_bind; auto with keeps_log.
  intros t. destruct (no_text t); auto 10 with keeps_log.
Qed.

Lemma txt_chunks_each (p t : string) (c : chunk) :
  In c (txt_chunks p t) ->
  exists i : Z, 0 <= i /\ c = txt_chunk p t 1000 i.
Proof.
  unfold txt_chunks. destruct (no_text t); [contradiction|].
  rewrite range_from_zero_by_1000, map_map. intros Hin.
  apply in_map_iff in Hin as (k & <- & _).
  eexists. split; [|reflexivity]. lia.
Qed.

Lemma txt_chunks_short (p t : string) :
  Forall (fun c => Py.len (text c) <= default_chunk_size) (txt_chunks p t).
Proof.
  apply Forall_forall. intros c Hc.
  apply txt_chunks_each in Hc as (i & Hi & ->).
  unfold txt_chunk, default_chunk_size. cbn [text].
  pose proof (len_slice_le t i (i + 1000)). lia.
Qed.

Lemma txt_chunks_metadata (p t : string) :
  Forall (fun c =>
            dict_keys (metadata c)
            = ["source"; "chunk"; "total_chunks"; "format"]%string /\
            format_of c = Some (VStr "txt"))
         (txt_chunks p t).
Proof.
  apply Forall_forall. intros c Hc.
  apply txt_chunks_each in Hc as (i & Hi & ->).
  split; reflexivity.
Qed.

Lemma txt_chunks_not_split (p t : string) :
  split_into_chunks (txt_chunks p t) default_chunk_size default_overlap
  = Ok (txt_chunks p t).
Proof. apply split_into_chunks_all_short, txt_chunks_short. Qed.

(* ================================================================= *)
(** ** The orchestrator *)

Lemma logged_then_kept {A B : Type} (m : M A) (k : A -> M B)
    (r : log_record) (st : state) :
  In r (logs (fst (m st))) ->
  (forall a, keeps_log (k a)) ->
  In r (logs (fst (bind m k st))).
Proof.
  intros Hin Hk. unfold bind.
  destruct (m st) as [st' [a|e]]; simpl in *; [now apply Hk|assumption].
Qed.

Lemma logged_in_body {A : Type} (what : string) (body : M A)
    (r : log_record) (st : state) :
  In r (logs (fst (body st))) ->
  In r (logs (fst (logging_errors what body st))).
Proof.
  unfold logging_errors. destruct (body st) as [st' [a|e]]; simpl;
    [trivial|]. intros Hin. apply in_app_iff. now left.
Qed.

Lemma snd_save_output (w : world) (output_path : option string)
    (chunks : list chunk) (st : state) :
  snd (save_output w output_path chunks st)
  = save_outcome w output_path chunks.
Proof.
  unfold save_output, save_outcome.
  destruct output_path as [p|]; [|reflexivity].
  destruct (Py.truthy p); [|reflexivity].
  rewrite snd_bind. cbn [lift snd fst].
  destruct (open_for_writing w p) as [[]|e]; [|reflexivity].
  rewrite snd_bind. cbn [file_opened snd fst].
  rewrite snd_bind. cbn [lift snd fst rbind].
  destruct (dump_json w p chunks) as [[]|e]; [|reflexivity].
  rewrite snd_bind. reflexivity.
Qed.

Lemma keeps_log_save_output (w : world) (output_path : option string)
    (chunks : list chunk) :
  keeps_log (save_output w output_path chunks).
Proof.
  unfold save_output. destruct output_path as [p|]; auto with keeps_log.
  destruct (Py.truthy p); auto 20 with keeps_log.
Qed.

(** The result of [process_document] in terms of the result of the
    extraction. *)
Lemma process_document_result (w : world) (p : string)
    (output_path : option string) (st : state) :
  path_exists w p = true ->
  exists st1 : state,
    snd (process_document w p output_path st) =
    (extracted <- snd (extract_by_extension w p (file_ext_of p) st1) ;;
     chunks <- split_into_chunks extracted default_chunk_size
                 default_overlap ;;
     _ <- save_outcome w output_path chunks ;;
     Ok chunks).
Proof.
  intros Hexists. unfold process_document.
  rewrite snd_logging_errors, Hexists. cbn [negb].
  rewrite snd_bind. cbn [log snd fst].
  exists (State (logs st
                 ++ [Log INFO ("Processing file with extension: "
                               ++ file_ext_of p)%string])
                (written st)).
  rewrite snd_bind.
  destruct (snd (extract_by_extension _ _ _ _)) as [extracted|e];
    cbn [rbind]; [|reflexivity].
  rewrite snd_bind. cbn [lift snd fst].
  destruct (split_into_chunks _ _ _) as [chunks|e]; cbn [rbind];
    [|reflexivity].
  rewrite snd_bind, snd_save_output.
  destruct (save_outcome w output_path chunks); reflexivity.
Qed.

Lemma known_extension_false (file_ext : string) :
  known_extension file_ext = false ->
  String.eqb file_ext ".pdf" = false /\
  String.eqb file_ext ".txt" = false /\
  String.eqb file_ext ".json" = false.
Proof.
  unfold known_extension. intros H.
  apply orb_false_elim in H as [H H3]. apply orb_false_elim in H as [H1 H2].
  auto.
Qed.

(** Both the [".txt"] branch and the fallback branch return what the text
    extractor returns. *)
Lemma extract_by_extension_text (w : world) (p file_ext : string)
    (st : state) :
  file_ext = ".txt" \/ known_extension file_ext = false ->
  snd (extract_by_extension w p file_ext st) =
  (t <- read_text w p ;; Ok (txt_chunks p t)).
Proof.
  unfold extract_by_extension. intros [->|Hunknown].
  - cbn [String.eqb Ascii.eqb Bool.eqb]. apply extract_text_from_txt_result.
  - apply known_extension_false in Hunknown as (-> & -> & ->).
    rewrite snd_bind. cbn [log snd fst].
    apply extract_text_from_txt_result.
Qed.

Lemma process_document_text_result (w : world) (p : string)
    (output_path : option string) (st : state) :
  path_exists w p = true ->
  file_ext_of p = ".txt" \/ known_extension (file_ext_of p) = false ->
  snd (process_document w p output_path st) =
  (t <- read_text w p ;;
   _ <- save_outcome w output_path (txt_chunks p t) ;;
   Ok (txt_chunks p t)).
Proof.
  intros Hexists Hroute.
  destruct (process_document_result w p output_path st Hexists)
    as [st1 ->].
  rewrite extract_by_extension_text by assumption.
  destruct (read_text w p) as [t|e]; cbn [rbind]; [|reflexivity].
  rewrite txt_chunks_not_split. reflexivity.
Qed.

(** C10.  With the defaults of the pipeline the re-chunker leaves the
    records of the text extractor as they are: whenever the file can be
    read the extractor returns records of at most 1000 characters, the
    default [chunk_size], so that re-chunking them returns the same list;
    their metadata holds the four keys of the extractor and no other, and
    [process_document] on a [".txt"] file returns these very records. *)
Theorem txt_records_never_split :
  forall (w : world) (txt_path : string) (st : state) (t : string),
    read_text w txt_path = Ok t ->
    exists chunks : list chunk,
      snd (extract_text_from_txt w txt_path st) = Ok chunks /\
      Forall (fun c => Py.len (text c) <= default_chunk_size) chunks /\
      split_into_chunks chunks default_chunk_size default_overlap
      = Ok chunks /\
      Forall (fun c => dict_keys (metadata c)
                       = ["source"; "chunk"; "total_chunks"; "format"]%string)
             chunks /\
      (path_exists w txt_path = true ->
       file_ext_of txt_path = ".txt" ->
       snd (process_document w txt_path None st) = Ok chunks).
Proof.
  intros w txt_path st t Hread. exists (txt_chunks txt_path t).
  split; [now rewrite extract_text_from_txt_result, Hread|].
  split; [apply txt_chunks_short|].
  split; [apply txt_chunks_not_split|].
  split.
  - eapply Forall_impl; [|apply txt_chunks_metadata]. now intros c [Hk _].
  - intros Hexists Hext.
    rewrite process_document_text_result by auto.
    now rewrite Hread.
Qed.

Lemma txt_records_never_split_witness :
  read_text example_world "notes.txt" = Ok "hello" /\
  snd (process_document example_world "notes.txt" None initial_state)
  = snd (extract_text_from_txt example_world "notes.txt" initial_state).
Proof.
  split; [reflexivity|].
  destruct (txt_records_never_split example_world "notes.txt"
              initial_state "hello" eq_refl)
    as (chunks & Hextract & _ & _ & _ & Hprocess).
  rewrite Hextract. apply Hprocess; reflexivity.
Defined.

(** C8, counterexample.  A file ["notes.md"]: its one record has
    [format] ["txt"], the value a [".txt"] file gets; no other value marks
    the unrecognised extension. *)
Lemma unknown_extension_format_is_txt :
  known_extension (file_ext_of "notes.md") = false /\
  snd (process_document example_world "notes.md" None initial_state)
  = Ok [Chunk "hello"
          [("source", VStr "notes.md"); ("chunk", VInt 1);
           ("total_chunks", VInt 1); ("format", VStr "txt")]] /\
  snd (process_document example_world "notes.txt" None initial_state)
  = Ok [Chunk "hello"
          [("source", VStr "notes.txt"); ("chunk", VInt 1);
           ("total_chunks", VInt 1); ("format", VStr "txt")]].
Proof. repeat split; reflexivity. Qed.

(** C8, as the code has it.  For an existing file whose lower-cased
    extension is none of [".pdf"], [".txt"], [".json"], [process_document]
    logs the warning, and returns what the text extractor returns for the
    file, provided the output file, if any, can be written; every record
    returned has [format] ["txt"]. *)
Theorem unknown_extension_falls_back_to_text :
  forall (w : world) (file_path : string) (output_path : option string)
         (st : state),
    path_exists w file_path = true ->
    known_extension (file_ext_of file_path) = false ->
    In (unsupported_warning (file_ext_of file_path))
       (logs (fst (process_document w file_path output_path st))) /\
    snd (process_document w file_path output_path st) =
    (chunks <- snd (extract_text_from_txt w file_path st) ;;
     _ <- save_outcome w output_path chunks ;;
     Ok chunks) /\
    (forall chunks : list chunk,
        snd (process_document w file_path output_path st) = Ok chunks ->
        Forall (fun c => format_of c = Some (VStr "txt")) chunks).
Proof.
  intros w file_path output_path st Hexists Hunknown.
  assert (Hresult :
            snd (process_document w file_path output_path st) =
            (t <- read_text w file_path ;;
             _ <- save_outcome w output_path (txt_chunks file_path t) ;;
             Ok (txt_chunks file_path t)))
    by (apply process_document_text_result; auto).
  split; [|split].
  - unfold process_document. apply logged_in_body.
    rewrite Hexists. cbn [negb].
    unfold bind at 1. cbn [log].
    apply logged_then_kept.
    + unfold extract_by_extension.
      destruct (known_extension_false _ Hunknown) as (-> & -> & ->).
      unfold bind at 1. cbn [log].
      apply keeps_log_extract_text_from_txt. cbn [logs].
      apply in_app_iff. right. now left.
    + intros extracted. apply keeps_log_bind; auto with keeps_log.
      intros chunks. apply keeps_log_bind; auto with keeps_log.
      apply keeps_log_save_output.
  - rewrite Hresult, extract_text_from_txt_result.
    destruct (read_text w file_path); reflexivity.
  - intros chunks Hchunks. rewrite Hresult in Hchunks.
    destruct (read_text w file_path) as [t|e]; [|discriminate].
    cbn [rbind] in Hchunks.
    destruct (save_outcome w output_path (txt_chunks file_path t));
      [|discriminate].
    injection Hchunks as <-.
    eapply Forall_impl; [|apply txt_chunks_metadata]. now intros c [_ Hf].
Qed.

Lemma unknown_extension_falls_back_to_text_witness :
  path_exists example_world "notes.md" = true /\
  known_extension (file_ext_of "notes.md") = false /\
  In (unsupported_warning ".md")
     (logs (fst (process_document example_world "notes.md" None
                   initial_state))).
Proof.
  split; [reflexivity|]. split; [reflexivity|].
  apply (proj1 (unknown_extension_falls_back_to_text
                  example_world "notes.md" None initial_state
                  eq_refl eq_refl)).
Defined.

(* ================================================================= *)
(** ** Records and their text *)

Lemma no_text_false (t : string) : no_text t = false -> Py.strip t <> "".
Proof.
  unfold no_text, Py.len. intros H. apply orb_false_elim in H as [_ H].
  apply Z.eqb_neq in H. intros Hs. rewrite Hs in H. now apply H.
Qed.

Lemma no_text_true (t : string) : Py.strip t = "" -> no_text t = true.
Proof.
  unfold no_text, Py.len. intros ->. apply orb_true_r.
Qed.

Lemma pdf_loop_result (pdf_path : string) (num_pages : nat)
    (pages : list string) :
  forall (i : nat) (results : list chunk) (st : state),
  exists out : list chunk,
    snd (pdf_loop pdf_path num_pages pages i results st)
    = Ok (results ++ out) /\
    Forall has_text out /\
    map text out = filter (fun t => negb (no_text t)) pages.
Proof.
  induction pages as [|t rest IH]; intros i results st; cbn [pdf_loop filter].
  - exists []. rewrite app_nil_r. repeat split. constructor.
  - destruct (no_text t) eqn:Ht; cbn [negb].
    + rewrite snd_bind. cbn [log snd fst]. apply IH.
    + edestruct IH as (out & -> & Hout & Htexts).
      eexists (_ :: out). rewrite <- app_assoc. split; [reflexivity|].
      split.
      * constructor; [|assumption]. now apply no_text_false.
      * cbn [map text]. now rewrite Htexts.
Qed.

(** C9, counterexample.  A JSON file holding the empty object yields,
    through the whole pipeline, one record whose text is empty. *)
Lemma empty_text_record_emitted :
  snd (process_document example_world "data.json" None initial_state)
  = Ok [Chunk ""
          [("source", VStr "data.json"); ("item_index", VInt 0);
           ("total_items", VInt 1); ("format", VStr "json");
           ("original_item", VDict [])]].
Proof. reflexivity. Qed.

(** C9, as the code has it.  The PDF extractor, whenever the pages can be
    read, returns one record for each page that has text once trimmed, in
    order and with that page's text, so every record it returns has text
    once trimmed; and the text extractor returns no record for a file
    whose whole content is empty once trimmed. *)
Theorem extracted_pdf_records_have_text :
  forall (w : world) (path : string) (st : state),
    (forall pages : list string,
        pdf_page_texts w path = Ok pages ->
        exists chunks : list chunk,
          snd (extract_text_from_pdf w path st) = Ok chunks /\
          Forall has_text chunks /\
          map text chunks = filter (fun t => negb (no_text t)) pages) /\
    (forall t : string,
        read_text w path = Ok t ->
        Py.strip t = "" ->
        snd (extract_text_from_txt w path st) = Ok []).
Proof.
  intros w path st. split.
  - intros pages Hpages. unfold extract_text_from_pdf.
    rewrite snd_logging_errors, snd_bind. cbn [log snd fst].
    rewrite snd_bind. cbn [lift snd fst]. rewrite Hpages.
    rewrite snd_bind.
    edestruct (pdf_loop_result path (List.length pages) pages 0%nat [])
      as (out & -> & Hout & Htexts).
    exists out. rewrite snd_bind. cbn [log snd fst ret app].
    auto.
  - intros t Hread Hblank.
    rewrite extract_text_from_txt_result, Hread. cbn [rbind].
    unfold txt_chunks. now rewrite no_text_true.
Qed.

Lemma extracted_pdf_records_have_text_witness :
  pdf_page_texts example_world "a.pdf" = Ok ["page one"; "   "; ""] /\
  exists chunks : list chunk,
    snd (extract_text_from_pdf example_world "a.pdf" initial_state)
    = Ok chunks /\
    Forall has_text chunks /\
    map text chunks
    = filter (fun t => negb (no_text t)) ["page one"; "   "; ""].
Proof.
  split; [reflexivity|].
  apply (proj1 (extracted_pdf_records_have_text example_world "a.pdf"
                  initial_state)).
  reflexivity.
Defined.

(** A slab of the text extractor and a sub-chunk of the re-chunker may be
    blank. *)
Example blank_slab_and_blank_sub_chunk :
  (exists c : chunk,
      nth_error (txt_chunks "a.txt"
                   ("a" ++ string_of_list_ascii (repeat " "%char 1000)))
                1 = Some c /\
      Py.strip (text c) = "") /\
  (exists c1 c2 : chunk,
      split_into_chunks
        [Chunk "ab    " []] 4 2
      = Ok [c1; c2] /\
      Py.strip (text c2) = "").
Proof.
  split.
  - eexists. split; vm_compute; reflexivity.
  - do 2 eexists. split; vm_compute; reflexivity.
Qed.

(* ================================================================= *)
(** ** More on the re-chunker *)

Lemma split_item_pieces (chunk_size overlap : Z) (item : chunk) :
  0 <= overlap < chunk_size ->
  split_item item chunk_size overlap = Ok (pieces chunk_size overlap item).
Proof.
  intros Hov. unfold pieces.
  destruct (Z.leb_spec (Py.len (text item)) chunk_size) as [Hshort|Hlong].
  - now apply split_item_short.
  - now apply split_item_long.
Qed.

Lemma split_into_chunks_pieces (chunk_size overlap : Z)
    (texts : list chunk) :
  0 <= overlap < chunk_size ->
  split_into_chunks texts chunk_size overlap
  = Ok (flat_map (pieces chunk_size overlap) texts).
Proof.
  intros Hov. induction texts as [|item rest IH]; [reflexivity|].
  rewrite split_into_chunks_cons, split_item_pieces, IH by assumption.
  reflexivity.
Qed.

Lemma full_windows_positive (chunk_size overlap : Z) (item : chunk) :
  0 <= overlap < chunk_size ->
  chunk_size < Py.len (text item) ->
  (0 < full_windows item chunk_size overlap)%nat.
Proof.
  intros Hov Hlong.
  apply (fits_iff chunk_size overlap item Hov Hlong 0%nat). lia.
Qed.

Lemma pieces_nonempty (chunk_size overlap : Z) (item : chunk) :
  0 <= overlap < chunk_size ->
  (1 <= List.length (pieces chunk_size overlap item))%nat.
Proof.
  intros Hov. unfold pieces.
  destruct (Z.leb_spec (Py.len (text item)) chunk_size) as [Hshort|Hlong].
  - simpl. lia.
  - rewrite length_map, length_seq. now apply full_windows_positive.
Qed.

Lemma pieces_fit (chunk_size overlap : Z) (item : chunk) :
  0 <= overlap < chunk_size ->
  Forall (fun c => Py.len (text c) <= chunk_size)
         (pieces chunk_size overlap item).
Proof.
  intros Hov. unfold pieces.
  destruct (Z.leb_spec (Py.len (text item)) chunk_size) as [Hshort|Hlong].
  - now repeat constructor.
  - apply Forall_forall. intros c Hc.
    apply in_map_iff in Hc as (k & <- & Hk). apply in_seq in Hk.
    assert (Hfit : Z.of_nat k * (chunk_size - overlap) + chunk_size
                   <= Py.len (text item))
      by (apply (fits_iff chunk_size overlap item Hov Hlong k); lia).
    unfold sub_chunk. cbn [text].
    rewrite Z.min_l by lia. rewrite len_slice_in_bounds; nia.
Qed.

(** X1.  With [0 <= overlap < chunk_size] no record is lost: every input
    record contributes at least one output record, itself or as many
    sub-chunks as it has full windows, so the output is at least as long as
    the input. *)
Theorem split_into_chunks_keeps_every_record :
  forall (texts : list chunk) (chunk_size overlap : Z),
    0 <= overlap < chunk_size ->
    exists out : list chunk,
      split_into_chunks texts chunk_size overlap = Ok out /\
      List.length out
      = list_sum
          (map (fun item =>
                  if Py.len (text item) <=? chunk_size then 1%nat
                  else full_windows item chunk_size overlap)
               texts) /\
      (List.length texts <= List.length out)%nat.
Proof.
  intros texts chunk_size overlap Hov.
  exists (flat_map (pieces chunk_size overlap) texts).
  split; [now apply split_into_chunks_pieces|].
  induction texts as [|item rest [IHsum IHle]]; [split; reflexivity|].
  cbn [flat_map map list_sum fold_right List.length].
  rewrite length_app, IHsum.
  pose proof (pieces_nonempty chunk_size overlap item Hov) as Hne.
  split; [|fold (list_sum
                   (map (fun item0 =>
                           if Py.len (text item0) <=? chunk_size then 1%nat
                           else full_windows item0 chunk_size overlap)
                        rest)); lia].
  f_equal. unfold pieces.
  destruct (Py.len (text item) <=? chunk_size); [reflexivity|].
  now rewrite length_map, length_seq.
Qed.

Lemma split_into_chunks_keeps_every_record_witness :
  0 <= 1 < 4 /\
  exists out : list chunk,
    split_into_chunks [Chunk "abcdefghij" []; Chunk "ab" []] 4 1 = Ok out /\
    List.length out
    = list_sum
        (map (fun item =>
                if Py.len (text item) <=? 4 then 1%nat
                else full_windows item 4 1)
             [Chunk "abcdefghij" []; Chunk "ab" []]) /\
    (List.length [Chunk "abcdefghij" []; Chunk "ab" []]
     <= List.length out)%nat.
Proof.
  split; [lia|].
  apply (split_into_chunks_keeps_every_record
           [Chunk "abcdefghij" []; Chunk "ab" []] 4 1).
  lia.
Defined.

(** X2.  With [0 <= overlap < chunk_size], re-chunking what the re-chunker
    returned changes nothing: every record it returns is at most
    [chunk_size] characters long. *)
Theorem split_into_chunks_idempotent :
  forall (texts : list chunk) (chunk_size overlap : Z),
    0 <= overlap < chunk_size ->
    exists out : list chunk,
      split_into_chunks texts chunk_size overlap = Ok out /\
      Forall (fun c => Py.len (text c) <= chunk_size) out /\
      split_into_chunks out chunk_size overlap = Ok out.
Proof.
  intros texts chunk_size overlap Hov.
  exists (flat_map (pieces chunk_size overlap) texts).
  split; [now apply split_into_chunks_pieces|].
  assert (Hfit : Forall (fun c => Py.len (text c) <= chunk_size)
                        (flat_map (pieces chunk_size overlap) texts)).
  { apply Forall_flat_map, Forall_forall. intros item _.
    now apply pieces_fit. }
  split; [assumption|]. now apply split_into_chunks_all_short.
Qed.

Lemma split_into_chunks_idempotent_witness :
  0 <= 1 < 4 /\
  exists out : list chunk,
    split_into_chunks [Chunk "abcdefghij" []] 4 1 = Ok out /\
    Forall (fun c => Py.len (text c) <= 4) out /\
    split_into_chunks out 4 1 = Ok out.
Proof.
  split; [lia|].
  apply (split_into_chunks_idempotent [Chunk "abcdefghij" []] 4 1). lia.
Defined.

Lemma split_single_long (chunk_size overlap : Z) (item : chunk) :
  0 <= overlap < chunk_size ->
  chunk_size < Py.len (text item) ->
  split_into_chunks [item] chunk_size overlap
  = Ok (map (fun k => sub_chunk item chunk_size overlap
                        (Z.of_nat k * (chunk_size - overlap))
                        (Z.of_nat k + 1))
            (seq 0 (full_windows item chunk_size overlap))).
Proof.
  intros Hov Hlong. rewrite split_into_chunks_pieces by assumption.
  cbn [flat_map]. rewrite app_nil_r. unfold pieces.
  destruct (Z.leb_spec (Py.len (text item)) chunk_size); [lia|reflexivity].
Qed.

(** X3.  The metadata of a sub-chunk: [chunk] is its 1-based position
    among the sub-chunks of its record, [original_page] is the record's
    [page], or 1 when the record has none, and every other key of the
    record, apart from the three the re-chunker sets, keeps its value. *)
Theorem sub_chunk_metadata_merge :
  forall (item : chunk) (chunk_size overlap : Z),
    0 <= overlap < chunk_size ->
    chunk_size < Py.len (text item) ->
    exists chunks : list chunk,
      split_into_chunks [item] chunk_size overlap = Ok chunks /\
      forall (k : nat) (c : chunk),
        nth_error chunks k = Some c ->
        dict_get (metadata c) "chunk" = Some (VInt (Z.of_nat k + 1)) /\
        dict_get (metadata c) "original_page"
        = Some (dict_get_default (metadata item) "page" (VInt 1)) /\
        (forall key : string,
            sub_chunk_key key = false ->
            dict_get (metadata c) key = dict_get (metadata item) key).
Proof.
  intros item chunk_size overlap Hov Hlong.
  eexists. split; [now apply split_single_long|].
  intros k c Hc. apply nth_error_map_seq in Hc as [_ ->].
  unfold sub_chunk. cbn [metadata]. split; [|split].
  - rewrite !dict_get_set_other by discriminate. apply dict_get_set_same.
  - apply dict_get_set_same.
  - intros key Hkey. unfold sub_chunk_key in Hkey.
    apply orb_false_elim in Hkey as [Hkey H3].
    apply orb_false_elim in Hkey as [H1 H2].
    apply String.eqb_neq in H1, H2, H3.
    now rewrite !dict_get_set_other by assumption.
Qed.

Lemma sub_chunk_metadata_merge_witness :
  0 <= 1 < 4 /\
  4 < Py.len (text (Chunk "abcdefghij" [("page", VInt 7)])) /\
  exists chunks : list chunk,
    split_into_chunks [Chunk "abcdefghij" [("page", VInt 7)]] 4 1
    = Ok chunks /\
    forall (k : nat) (c : chunk),
      nth_error chunks k = Some c ->
      dict_get (metadata c) "chunk" = Some (VInt (Z.of_nat k + 1)) /\
      dict_get (metadata c) "original_page"
      = Some (dict_get_default
                (metadata (Chunk "abcdefghij" [("page", VInt 7)]))
                "page" (VInt 1)) /\
      (forall key : string,
          sub_chunk_key key = false ->
          dict_get (metadata c) key
          = dict_get (metadata (Chunk "abcdefghij" [("page", VInt 7)])) key).
Proof.
  split; [lia|]. split; [vm_compute; reflexivity|].
  apply (sub_chunk_metadata_merge (Chunk "abcdefghij" [("page", VInt 7)])
           4 1).
  - lia.
  - vm_compute. reflexivity.
Defined.

(** X4.  What the tail policy loses: the sub-chunks of a record longer
    than [chunk_size] cover its text from the start up to the end of the
    last full window, every character before that end being in some
    sub-chunk, and the characters left out at the end are fewer than
    [chunk_size - overlap]. *)
Theorem split_into_chunks_lost_tail :
  forall (item : chunk) (chunk_size overlap : Z),
    0 <= overlap < chunk_size ->
    chunk_size < Py.len (text item) ->
    let step := chunk_size - overlap in
    exists chunks : list chunk,
      split_into_chunks [item] chunk_size overlap = Ok chunks /\
      let covered :=
        (Z.of_nat (List.length chunks) - 1) * step + chunk_size in
      covered <= Py.len (text item) < covered + step /\
      forall j : Z,
        0 <= j < covered ->
        exists (k : nat) (c : chunk),
          nth_error chunks k = Some c /\
          Z.of_nat k * step <= j < Z.of_nat k * step + chunk_size /\
          Py.slice (text c) (j - Z.of_nat k * step)
            (j - Z.of_nat k * step + 1)
          = Py.slice (text item) j (j + 1).
Proof.
  intros item chunk_size overlap Hov Hlong step.
  eexists. split; [now apply split_single_long|].
  fold step. rewrite length_map, length_seq.
  set (nw := full_windows item chunk_size overlap).
  assert (Hfit : forall k : nat,
             (k < nw)%nat <->
             Z.of_nat k * step + chunk_size <= Py.len (text item))
    by (intros k; apply fits_iff; assumption).
  assert (Hpos : (0 < nw)%nat) by (apply Hfit; lia).
  assert (Hlast : Z.of_nat (nw - 1) * step + chunk_size
                  <= Py.len (text item)) by (apply Hfit; lia).
  assert (Hnext : ~ Z.of_nat nw * step + chunk_size <= Py.len (text item))
    by (intros H; apply Hfit in H; lia).
  replace (Z.of_nat nw - 1) with (Z.of_nat (nw - 1)) by lia.
  cbv zeta. split; [subst step; nia|].
  intros j Hj.
  set (k := Nat.min (Z.to_nat (j / step)) (nw - 1)).
  assert (Hstep : 0 < step) by (subst step; lia).
  assert (Hk : Z.of_nat k * step <= j < Z.of_nat k * step + chunk_size).
  { pose proof (Z.mul_div_le j step Hstep).
    pose proof (Z.mul_succ_div_gt j step Hstep).
    assert (0 <= j / step) by (apply Z.div_pos; lia).
    destruct (Nat.le_gt_cases (Z.to_nat (j / step)) (nw - 1)) as [Hle|Hgt].
    - replace k with (Z.to_nat (j / step)) by (subst k; lia).
      rewrite Z2Nat.id by lia. subst step. nia.
    - replace k with (nw - 1)%nat by (subst k; lia).
      split; [|lia].
      assert (Z.of_nat (nw - 1) < j / step) by lia. nia. }
  assert (Hkn : (k < nw)%nat) by (subst k; lia).
  exists k. eexists. split.
  - rewrite nth_error_map, nth_error_seq.
    destruct (Nat.ltb_spec k nw); [|lia]. reflexivity.
  - split; [exact Hk|].
    apply Hfit in Hkn. unfold sub_chunk. cbn [text]. fold step.
    rewrite Z.min_l by lia.
    rewrite slice_slice by lia.
    f_equal; lia.
Qed.

Lemma split_into_chunks_lost_tail_witness :
  0 <= 1 < 4 /\
  4 < Py.len (text (Chunk "abcdefghijkl" [])) /\
  exists chunks : list chunk,
    split_into_chunks [Chunk "abcdefghijkl" []] 4 1 = Ok chunks /\
    (Z.of_nat (List.length chunks) - 1) * (4 - 1) + 4
    <= Py.len (text (Chunk "abcdefghijkl" []))
    < (Z.of_nat (List.length chunks) - 1) * (4 - 1) + 4 + (4 - 1) /\
    forall j : Z,
      0 <= j < (Z.of_nat (List.length chunks) - 1) * (4 - 1) + 4 ->
      exists (k : nat) (c : chunk),
        nth_error chunks k = Some c /\
        Z.of_nat k * (4 - 1) <= j < Z.of_nat k * (4 - 1) + 4 /\
        Py.slice (text c) (j - Z.of_nat k * (4 - 1))
          (j - Z.of_nat k * (4 - 1) + 1)
        = Py.slice (text (Chunk "abcdefghijkl" [])) j (j + 1).
Proof.
  split; [lia|]. split; [vm_compute; reflexivity|].
  apply (split_into_chunks_lost_tail (Chunk "abcdefghijkl" []) 4 1).
  - lia.
  - vm_compute. reflexivity.
Defined.

(* ================================================================= *)
(** ** More on the extractors *)

Lemma no_text_iff (t : string) : no_text t = true <-> Py.strip t = "".
Proof.
  split; [|apply no_text_true].
  unfold no_text, Py.len. intros H. apply orb_prop in H as [H|H].
  - destruct t; [reflexivity|discriminate].
  - apply Z.eqb_eq in H. destruct (Py.strip t); [reflexivity|].
    simpl in H. lia.
Qed.

Lemma substring_append (s : string) :
  forall a c : nat,
    (substring 0 a s ++ substring a c s)%string = substring 0 (a + c) s.
Proof.
  induction s as [|x s IH]; intros [|a] c; simpl.
  - destruct c; reflexivity.
  - destruct c; reflexivity.
  - reflexivity.
  - now rewrite IH.
Qed.

Lemma substring_all (s : string) :
  forall n : nat, (String.length s <= n)%nat -> substring 0 n s = s.
Proof.
  induction s as [|x s IH]; intros [|n] H; simpl in *; try reflexivity;
    try lia.
  rewrite IH by lia. reflexivity.
Qed.

Lemma concat_empty_snoc (l : list string) (x : string) :
  String.concat "" (l ++ [x]) = (String.concat "" l ++ x)%string.
Proof.
  assert (Hcons : forall (a b : string) (r : list string),
             String.concat "" (a :: b :: r)
             = (a ++ "" ++ String.concat "" (b :: r))%string)
    by reflexivity.
  induction l as [|y l IH]; [reflexivity|].
  destruct l as [|z l]; [reflexivity|].
  change ((y :: z :: l) ++ [x]) with (y :: z :: (l ++ [x])).
  rewrite !Hcons.
  change (z :: l ++ [x]) with ((z :: l) ++ [x]).
  rewrite IH. cbn [append]. now rewrite append_assoc.
Qed.

(** The first [m] slabs of [size] characters make up the text up to
    [m * size]. *)
Lemma slabs_concat (t : string) (size : Z) (m : nat) :
  0 < size ->
  String.concat ""
    (map (fun k => Py.slice t (Z.of_nat k * size) (Z.of_nat k * size + size))
         (seq 0 m))
  = substring 0 (Z.to_nat (Z.min (Z.of_nat m * size) (Py.len t))) t.
Proof.
  intros Hsize. induction m as [|m IH].
  - simpl. destruct t; reflexivity.
  - rewrite seq_S, map_app. cbn [map Nat.add].
    rewrite concat_empty_snoc, IH.
    unfold Py.slice, Py.clamp_index.
    assert (0 <= Py.len t) by (unfold Py.len; lia).
    destruct (Z.ltb_spec (Z.of_nat m * size) 0); [nia|].
    destruct (Z.ltb_spec (Z.of_nat m * size + size) 0); [nia|].
    rewrite substring_append. f_equal. nia.
Qed.

Lemma txt_chunks_with_text (p t : string) :
  Py.strip t <> "" ->
  txt_chunks p t
  = map (fun k => txt_chunk p t 1000 (Z.of_nat k * 1000))
        (seq 0 (Z.to_nat ((Py.len t - 1) / 1000 + 1))).
Proof.
  intros Htext. unfold txt_chunks.
  destruct (no_text t) eqn:Hno; [now apply no_text_iff in Hno|].
  rewrite range_from_zero_by_1000, map_map.
  assert (Hlen : 0 < Py.len t).
  { unfold Py.len. destruct t; [now contradiction Htext|simpl; lia]. }
  unfold Py.range_len. cbn [Z.ltb Z.compare].
  destruct (Z.ltb_spec 0 (Py.len t)); [|lia].
  rewrite Z.sub_0_r. apply map_ext. intros k. reflexivity.
Qed.

(** X5.  The slabs of the text extractor partition the file: when the
    content has text, their texts put end to end give back the content;
    slab number [k] is [text[1000k : 1000k + 1000]], its [chunk] is
    [k + 1], and [total_chunks] is on every record the number of records
    returned. *)
Theorem txt_slabs_partition_the_text :
  forall (w : world) (txt_path : string) (st : state) (t : string),
    read_text w txt_path = Ok t ->
    Py.strip t <> "" ->
    exists chunks : list chunk,
      snd (extract_text_from_txt w txt_path st) = Ok chunks /\
      String.concat "" (map text chunks) = t /\
      forall (k : nat) (c : chunk),
        nth_error chunks k = Some c ->
        text c = Py.slice t (Z.of_nat k * 1000) (Z.of_nat k * 1000 + 1000) /\
        dict_get (metadata c) "chunk" = Some (VInt (Z.of_nat k + 1)) /\
        dict_get (metadata c) "total_chunks"
        = Some (VInt (Z.of_nat (List.length chunks))).
Proof.
  intros w txt_path st t Hread Htext.
  exists (txt_chunks txt_path t).
  split; [now rewrite extract_text_from_txt_result, Hread|].
  rewrite txt_chunks_with_text by assumption.
  assert (Hlen : 0 < Py.len t).
  { unfold Py.len. destruct t; [now contradiction Htext|simpl; lia]. }
  set (n := (Py.len t - 1) / 1000 + 1).
  assert (Hn : 1000 * (n - 1) <= Py.len t - 1 < 1000 * n).
  { subst n. pose proof (Z.mul_div_le (Py.len t - 1) 1000 ltac:(lia)).
    pose proof (Z.mul_succ_div_gt (Py.len t - 1) 1000 ltac:(lia)). lia. }
  split.
  - rewrite map_map. cbn [txt_chunk text].
    rewrite (slabs_concat t 1000) by lia.
    apply substring_all. unfold Py.len in *. lia.
  - intros k c Hc. apply nth_error_map_seq in Hc as [Hk ->].
    rewrite length_map, length_seq. cbn [txt_chunk text metadata].
    split; [reflexivity|]. split.
    + cbn. do 2 f_equal. unfold VInt. do 2 f_equal.
      rewrite Z.div_mul by lia. reflexivity.
    + cbn. unfold VInt. do 3 f_equal. rewrite Z2Nat.id by lia.
      subst n. replace (Py.len t + 1000 - 1) with (Py.len t - 1 + 1 * 1000)
        by lia.
      rewrite Z.div_add by lia. reflexivity.
Qed.

Lemma txt_slabs_partition_the_text_witness :
  read_text example_world "notes.txt" = Ok "hello" /\
  Py.strip "hello" <> "" /\
  exists chunks : list chunk,
    snd (extract_text_from_txt example_world "notes.txt" initial_state)
    = Ok chunks /\
    String.concat "" (map text chunks) = "hello" /\
    forall (k : nat) (c : chunk),
      nth_error chunks k = Some c ->
      text c = Py.slice "hello" (Z.of_nat k * 1000)
                 (Z.of_nat k * 1000 + 1000) /\
      dict_get (metadata c) "chunk" = Some (VInt (Z.of_nat k + 1)) /\
      dict_get (metadata c) "total_chunks"
      = Some (VInt (Z.of_nat (List.length chunks))).
Proof.
  split; [reflexivity|]. split; [discriminate|].
  apply (txt_slabs_partition_the_text example_world "notes.txt"
           initial_state "hello" eq_refl).
  discriminate.
Defined.

Lemma numbered_cons {A : Type} (i : nat) (x : A) (l : list A) :
  numbered i (x :: l) = (i, x) :: numbered (S i) l.
Proof. reflexivity. Qed.

Lemma pdf_loop_records (pdf_path : string) (num_pages : nat)
    (pages : list string) :
  forall (i : nat) (results : list chunk) (st : state),
    snd (pdf_loop pdf_path num_pages pages i results st)
    = Ok (results
          ++ map (fun it => pdf_chunk pdf_path num_pages (fst it + 1) (snd it))
                 (filter (fun it => negb (no_text (snd it)))
                         (numbered i pages))).
Proof.
  induction pages as [|t rest IH]; intros i results st.
  - cbn. now rewrite app_nil_r.
  - rewrite numbered_cons. cbn [pdf_loop filter snd].
    destruct (no_text t); cbn [negb].
    + rewrite snd_bind. cbn [log snd fst]. apply IH.
    + rewrite IH, <- app_assoc. reflexivity.
Qed.

Lemma keeps_log_pdf_loop (pdf_path : string) (num_pages : nat)
    (pages : list string) :
  forall (i : nat) (results : list chunk),
    keeps_log (pdf_loop pdf_path num_pages pages i results).
Proof.
  induction pages as [|t rest IH]; intros i results; cbn [pdf_loop].
  - apply keeps_log_ret.
  - destruct (no_text t); [|apply IH].
    apply keeps_log_bind; [apply keeps_log_log|]. intros _. apply IH.
Qed.

Lemma pdf_loop_warns (pdf_path : string) (num_pages : nat)
    (pages : list string) :
  forall (i : nat) (results : list chunk) (st : state) (j : nat)
         (t : string),
    nth_error pages j = Some t ->
    no_text t = true ->
    In (blank_page_warning (i + j + 1))
       (logs (fst (pdf_loop pdf_path num_pages pages i results st))).
Proof.
  induction pages as [|t0 rest IH]; intros i results st j t Hj Ht.
  - destruct j; discriminate.
  - cbn [pdf_loop]. destruct j as [|j]; cbn [nth_error] in Hj.
    + injection Hj as ->. rewrite Ht. unfold bind at 1. cbn [log].
      apply keeps_log_pdf_loop. cbn [logs].
      apply in_app_iff. right. left.
      unfold blank_page_warning. now rewrite Nat.add_0_r.
    + replace (i + S j + 1)%nat with (S i + j + 1)%nat by lia.
      destruct (no_text t0).
      * unfold bind at 1. cbn [log]. now apply (IH _ _ _ j t).
      * now apply (IH _ _ _ j t).
Qed.

(** X6.  The PDF extractor numbers the pages as the file has them: when
    the pages can be read, it returns, in order, one record for each page
    that has text, whose [page] is the 1-based position of the page among
    all the pages, blank ones counted, and whose [total_pages] counts all
    the pages; and a warning is logged for each page left out. *)
Theorem pdf_records_number_their_pages :
  forall (w : world) (pdf_path : string) (st : state) (pages : list string),
    pdf_page_texts w pdf_path = Ok pages ->
    snd (extract_text_from_pdf w pdf_path st)
    = Ok (map (fun it => pdf_chunk pdf_path (List.length pages)
                           (fst it + 1) (snd it))
              (filter (fun it => negb (no_text (snd it)))
                      (numbered 0 pages))) /\
    forall (j : nat) (t : string),
      nth_error pages j = Some t ->
      no_text t = true ->
      In (blank_page_warning (j + 1))
         (logs (fst (extract_text_from_pdf w pdf_path st))).
Proof.
  intros w pdf_path st pages Hpages. unfold extract_text_from_pdf. split.
  - rewrite snd_logging_errors, snd_bind. cbn [log snd fst].
    rewrite snd_bind. cbn [lift snd fst]. rewrite Hpages.
    rewrite snd_bind, pdf_loop_records. cbn [app].
    rewrite snd_bind. reflexivity.
  - intros j t Hj Ht. apply logged_in_body.
    unfold bind at 1. cbn [log].
    unfold bind at 1. cbn [lift]. rewrite Hpages.
    apply logged_then_kept.
    + now apply (pdf_loop_warns pdf_path _ pages 0%nat [] _ j t).
    + intros results. auto with keeps_log.
Qed.

Lemma pdf_records_number_their_pages_witness :
  pdf_page_texts example_world "a.pdf" = Ok ["page one"; "   "; ""] /\
  snd (extract_text_from_pdf example_world "a.pdf" initial_state)
  = Ok [pdf_chunk "a.pdf" 3 1 "page one"] /\
  In (blank_page_warning 2)
     (logs (fst (extract_text_from_pdf example_world "a.pdf"
                   initial_state))).
Proof.
  split; [reflexivity|].
  destruct (pdf_records_number_their_pages example_world "a.pdf"
              initial_state ["page one"; "   "; ""] eq_refl)
    as [Hrecords Hwarn].
  split; [exact Hrecords|].
  apply (Hwarn 1%nat "   "); reflexivity.
Defined.

Lemma json_loop_records (json_path : string) (total_items : nat)
    (items : list value) :
  forall (i : nat) (chunks : list chunk),
    json_loop json_path total_items items i chunks
    = chunks
      ++ map (fun it => json_chunk json_path total_items (fst it) (snd it))
             (numbered i items).
Proof.
  induction items as [|item rest IH]; intros i chunks.
  - cbn. now rewrite app_nil_r.
  - rewrite numbered_cons. cbn [json_loop]. rewrite IH, <- app_assoc.
    reflexivity.
Qed.

Lemma nth_error_numbered {A : Type} (l : list A) :
  forall (i k : nat) (it : nat * A),
    nth_error (numbered i l) k = Some it ->
    fst it = (i + k)%nat /\ nth_error l k = Some (snd it).
Proof.
  induction l as [|x l IH]; intros i k it H.
  - destruct k; discriminate.
  - rewrite numbered_cons in H. destruct k as [|k]; cbn [nth_error] in *.
    + injection H as <-. split; [simpl; lia|reflexivity].
    + apply IH in H as [-> H]. split; [lia|assumption].
Qed.

Lemma length_numbered {A : Type} (i : nat) (l : list A) :
  List.length (numbered i l) = List.length l.
Proof.
  unfold numbered. rewrite length_combine, length_seq. apply Nat.min_id.
Qed.

(** X7.  The JSON extractor returns one record for each item, in order: a
    parsed list gives its elements, anything else is the one item.  Record
    number [k] has [item_index] [k], [total_items] the number of records,
    the item itself under [original_item], and for text the rendering of
    the flattened item. *)
Theorem json_records_follow_the_items :
  forall (w : world) (json_path : string) (st : state)
         (json_content : value),
    json_load w json_path = Ok json_content ->
    exists chunks : list chunk,
      snd (extract_text_from_json w json_path st) = Ok chunks /\
      List.length chunks = List.length (json_items_of json_content) /\
      ((forall l, json_content <> VList l) -> List.length chunks = 1%nat) /\
      forall (k : nat) (c : chunk),
        nth_error chunks k = Some c ->
        exists item : value,
          nth_error (json_items_of json_content) k = Some item /\
          text c = render_flattened (flatten_json item "") /\
          dict_get (metadata c) "item_index" = Some (VInt (Z.of_nat k)) /\
          dict_get (metadata c) "total_items"
          = Some (VInt (Z.of_nat (List.length chunks))) /\
          dict_get (metadata c) "original_item" = Some item.
Proof.
  intros w json_path st json_content Hload.
  set (items := json_items_of json_content).
  exists (map (fun it => json_chunk json_path (List.length items)
                           (fst it) (snd it))
              (numbered 0 items)).
  assert (Hlen : List.length
                   (map (fun it => json_chunk json_path (List.length items)
                                     (fst it) (snd it))
                        (numbered 0 items))
                 = List.length items)
    by now rewrite length_map, length_numbered.
  split; [|split; [exact Hlen|split]].
  - unfold extract_text_from_json.
    rewrite snd_logging_errors, snd_bind. cbn [log snd fst].
    rewrite snd_bind. cbn [lift snd fst]. rewrite Hload.
    rewrite snd_bind. cbn [log snd fst ret].
    fold items. now rewrite json_loop_records.
  - intros Hnot. rewrite Hlen. subst items.
    destruct json_content as [s|l|d]; [reflexivity| |reflexivity].
    now contradiction (Hnot l).
  - intros k c Hc. rewrite Hlen.
    rewrite nth_error_map in Hc.
    destruct (nth_error (numbered 0 items) k) as [it|] eqn:Hit;
      [|discriminate].
    injection Hc as <-.
    apply nth_error_numbered in Hit as [Hidx Hitem].
    exists (snd it). rewrite Hidx. cbn [Nat.add].
    split; [exact Hitem|]. repeat split.
Qed.

Lemma json_records_follow_the_items_witness :
  json_load example_world "data.json" = Ok (VDict []) /\
  exists chunks : list chunk,
    snd (extract_text_from_json example_world "data.json" initial_state)
    = Ok chunks /\
    List.length chunks = 1%nat.
Proof.
  split; [reflexivity|].
  destruct (json_records_follow_the_items example_world "data.json"
              initial_state (VDict []) eq_refl)
    as (chunks & Hc & _ & Hone & _).
  exists chunks. split; [exact Hc|]. apply Hone. discriminate.
Defined.

(* ================================================================= *)
(** ** More on the flattener *)

Section DictUpdateFacts.
Context {A : Type}.
Implicit Types (d m : dict A) (k : string) (v : A).

Lemma dict_update_app d m m' :
  dict_update d (m ++ m') = dict_update (dict_update d m) m'.
Proof. unfold dict_update. apply fold_left_app. Qed.

Lemma dict_update_cons d k v m :
  dict_update d ((k, v) :: m) = dict_update (dict_set d k v) m.
Proof. reflexivity. Qed.

Lemma dict_keys_set_present d k v :
  In k (dict_keys d) -> dict_keys (dict_set d k v) = dict_keys d.
Proof.
  unfold dict_keys.
  induction d as [|[k0 v0] d IH]; intros Hin; [contradiction|].
  cbn [dict_set]. destruct (String.eqb_spec k0 k) as [->|Hne];
    [reflexivity|].
  cbn [map fst] in *. rewrite IH; [reflexivity|].
  destruct Hin as [Heq|Hin]; [contradiction|assumption].
Qed.

Lemma dict_keys_set d k v :
  (In k (dict_keys d) /\ dict_keys (dict_set d k v) = dict_keys d) \/
  (~ In k (dict_keys d) /\ dict_keys (dict_set d k v) = dict_keys d ++ [k]).
Proof.
  destruct (in_dec string_dec k (dict_keys d)) as [Hin|Hnin].
  - left. split; [assumption|now apply dict_keys_set_present].
  - right. split; [assumption|].
    rewrite dict_set_fresh by assumption. unfold dict_keys.
    now rewrite map_app.
Qed.

Lemma in_dict_keys_set d k v k' :
  In k' (dict_keys (dict_set d k v)) <-> k' = k \/ In k' (dict_keys d).
Proof.
  destruct (dict_keys_set d k v) as [[Hin ->]|[Hnin ->]].
  - split; [now right|]. intros [->|H]; assumption.
  - rewrite in_app_iff. simpl. split; intros H.
    + destruct H as [H|[H|[]]]; [now right|now left].
    + destruct H as [->|H]; [right; now left|now left].
Qed.

Lemma NoDup_dict_set d k v :
  NoDup (dict_keys d) -> NoDup (dict_keys (dict_set d k v)).
Proof.
  intros Hnd. destruct (dict_keys_set d k v) as [[Hin ->]|[Hnin ->]];
    [assumption|].
  apply NoDup_app; [assumption|repeat constructor; intros []|].
  intros a Ha [<-|[]]. contradiction.
Qed.

Lemma NoDup_dict_update m :
  forall d, NoDup (dict_keys d) -> NoDup (dict_keys (dict_update d m)).
Proof.
  induction m as [|[k v] m IH]; intros d Hnd; [assumption|].
  rewrite dict_update_cons. now apply IH, NoDup_dict_set.
Qed.

Lemma length_dict_set d k v :
  (List.length d <= List.length (dict_set d k v) <= S (List.length d))%nat.
Proof.
  induction d as [|[k0 v0] d IH]; simpl; [lia|].
  destruct (String.eqb k0 k); simpl; lia.
Qed.

Lemma length_dict_update m :
  forall d,
    (List.length d <= List.length (dict_update d m)
     <= List.length d + List.length m)%nat.
Proof.
  induction m as [|[k v] m IH]; intros d; [simpl; lia|].
  rewrite dict_update_cons. specialize (IH (dict_set d k v)).
  pose proof (length_dict_set d k v). simpl. lia.
Qed.

Lemma dict_set_twice d k v v' :
  dict_set (dict_set d k v) k v' = dict_set d k v'.
Proof.
  induction d as [|[k0 v0] d IH]; simpl.
  - now rewrite String.eqb_refl.
  - destruct (String.eqb_spec k0 k) as [->|Hne]; simpl.
    + now rewrite String.eqb_refl.
    + destruct (String.eqb_spec k0 k); [contradiction|]. now rewrite IH.
Qed.

Lemma dict_set_swap d k k' v v' :
  k <> k' -> In k (dict_keys d) ->
  dict_set (dict_set d k' v') k v = dict_set (dict_set d k v) k' v'.
Proof.
  intros Hne. induction d as [|[k0 v0] d IH]; intros Hin; [contradiction|].
  cbn [dict_set].
  destruct (String.eqb_spec k0 k) as [->|Hk];
    destruct (String.eqb_spec k k') as [Heq|_]; try contradiction.
  - cbn [dict_set]. rewrite String.eqb_refl.
    destruct (String.eqb_spec k k'); [contradiction|reflexivity].
  - destruct (String.eqb_spec k0 k') as [->|Hk']; cbn [dict_set].
    + rewrite String.eqb_refl.
      destruct (String.eqb_spec k' k); [congruence|reflexivity].
    + destruct (String.eqb_spec k0 k); [contradiction|].
      destruct (String.eqb_spec k0 k'); [contradiction|].
      rewrite IH; [reflexivity|].
      destruct Hin as [Heq|Hin]; [simpl in Heq; contradiction|assumption].
Qed.

Lemma dict_update_set_present m :
  forall d k v,
    In k (dict_keys d) -> ~ In k (dict_keys m) ->
    dict_set (dict_update d m) k v = dict_update (dict_set d k v) m.
Proof.
  induction m as [|[k0 v0] m IH]; intros d k v Hin Hnin; [reflexivity|].
  rewrite !dict_update_cons.
  assert (Hne : k <> k0) by (intros ->; apply Hnin; now left).
  rewrite IH.
  - now rewrite dict_set_swap.
  - apply in_dict_keys_set. now right.
  - intros H. apply Hnin. now right.
Qed.

Lemma dict_update_set m :
  forall d k v,
    NoDup (dict_keys m) ->
    dict_update d (dict_set m k v) = dict_set (dict_update d m) k v.
Proof.
  induction m as [|[k0 v0] m IH]; intros d k v Hnd; [reflexivity|].
  cbn [dict_set]. cbn [dict_keys map fst] in Hnd.
  apply NoDup_cons_iff in Hnd as [Hfresh Hnd].
  destruct (String.eqb_spec k0 k) as [->|Hne]; rewrite !dict_update_cons.
  - rewrite dict_update_set_present.
    + now rewrite dict_set_twice.
    + apply in_dict_keys_set. now left.
    + assumption.
  - now apply IH.
Qed.

(** Updating with a mapping built by successive insertions is inserting
    the entries one after the other. *)
Lemma dict_update_update (l : list (string * A)) :
  forall d, dict_update d (dict_update [] l) = dict_update d l.
Proof.
  induction l as [|[k v] l IH] using rev_ind; intros d; [reflexivity|].
  rewrite !dict_update_app.
  change (dict_update (dict_update [] l) [(k, v)])
    with (dict_set (dict_update [] l) k v).
  change (dict_update (dict_update d l) [(k, v)])
    with (dict_set (dict_update d l) k v).
  rewrite dict_update_set by (apply NoDup_dict_update; constructor).
  now rewrite IH.
Qed.

Lemma dict_get_app d d' k :
  dict_get (d ++ d') k
  = match dict_get d k with
    | Some v => Some v
    | None => dict_get d' k
    end.
Proof.
  induction d as [|[k0 v0] d IH]; [reflexivity|]. simpl.
  destruct (String.eqb k0 k); [reflexivity|assumption].
Qed.

(** Looking a key up after a series of insertions gives the value
    inserted last. *)
Lemma dict_get_update (l : list (string * A)) :
  forall d k,
    dict_get (dict_update d l) k
    = match dict_get (rev l) k with
      | Some v => Some v
      | None => dict_get d k
      end.
Proof.
  induction l as [|[k0 v0] l IH]; intros d k; [reflexivity|].
  rewrite dict_update_cons, IH. cbn [rev]. rewrite dict_get_app.
  destruct (dict_get (rev l) k); [reflexivity|]. simpl.
  destruct (String.eqb_spec k0 k) as [->|Hne].
  - apply dict_get_set_same.
  - apply dict_get_set_other. congruence.
Qed.

End DictUpdateFacts.

Lemma flatten_list_items_update (p : string) (items : list value) :
  Forall (fun c => forall q,
              flatten_json c q = dict_update [] (leaf_paths c q)) items ->
  forall (i : nat) (result : dict scalar),
    flatten_list_items flatten_json p items i result
    = dict_update result (leaf_paths_list_items leaf_paths p items i).
Proof.
  induction 1 as [|c rest Hc _ IH]; intros i result; [reflexivity|].
  cbn [flatten_list_items leaf_paths_list_items].
  fold (element_key p i). rewrite dict_update_app.
  destruct c as [s|l|d].
  - apply IH.
  - rewrite Hc, dict_update_update. apply IH.
  - rewrite Hc, dict_update_update. apply IH.
Qed.

Lemma flatten_dict_items_update (p : string)
    (items : list (string * value)) :
  Forall (fun kv => forall q,
              flatten_json (snd kv) q
              = dict_update [] (leaf_paths (snd kv) q)) items ->
  forall result : dict scalar,
    flatten_dict_items flatten_json p items result
    = dict_update result (leaf_paths_dict_items leaf_paths p items).
Proof.
  induction 1 as [|[key c] rest Hc _ IH]; intros result; [reflexivity|].
  cbn [flatten_dict_items leaf_paths_dict_items snd] in *.
  fold (member_key p key). rewrite dict_update_app.
  destruct c as [s|l|d].
  - apply IH.
  - rewrite Hc, dict_update_update. apply IH.
  - rewrite Hc, dict_update_update. apply IH.
Qed.

Lemma flatten_json_inserts_leaves (obj : value) :
  forall prefix,
    flatten_json obj prefix = dict_update [] (leaf_paths obj prefix).
Proof.
  induction obj as [s|l IH|d IH] using value_induction; intros prefix.
  - reflexivity.
  - cbn [flatten_json leaf_paths]. now apply flatten_list_items_update.
  - cbn [flatten_json leaf_paths]. now apply flatten_dict_items_update.
Qed.

(** X8.  On every value, whatever its keys, the flattened mapping is what
    inserting the leaves in pre-order under their key-paths gives: its keys
    are pairwise distinct, it has at most one entry for each leaf, and
    under a key-path it holds the value of the last leaf that generates
    it. *)
Theorem flatten_json_last_leaf_wins :
  forall (obj : value) (prefix : string),
    flatten_json obj prefix = dict_update [] (leaf_paths obj prefix) /\
    NoDup (dict_keys (flatten_json obj prefix)) /\
    (List.length (flatten_json obj prefix) <= leaf_count obj)%nat /\
    forall k : string,
      dict_get (flatten_json obj prefix) k
      = dict_get (rev (leaf_paths obj prefix)) k.
Proof.
  intros obj prefix. rewrite flatten_json_inserts_leaves.
  split; [reflexivity|]. split; [|split].
  - apply NoDup_dict_update. constructor.
  - pose proof (length_dict_update (leaf_paths obj prefix) []) as H.
    rewrite length_leaf_paths in H. simpl in H. lia.
  - intros k. rewrite dict_get_update.
    destruct (dict_get (rev (leaf_paths obj prefix)) k); reflexivity.
Qed.

Lemma flatten_as_object_items (d : dict scalar) :
  forall result : dict scalar,
    flatten_dict_items flatten_json ""
      (map (fun kv => (fst kv, Scalar (snd kv))) d) result
    = dict_update result d.
Proof.
  induction d as [|[k s] d IH]; intros result; [reflexivity|].
  cbn [map flatten_dict_items fst snd Py.truthy]. apply IH.
Qed.

Lemma flatten_json_flat_object (d : dict scalar) :
  NoDup (dict_keys d) -> flatten_json (as_object d) "" = d.
Proof.
  intros Hnd. unfold as_object. cbn [flatten_json].
  rewrite flatten_as_object_items. now apply (dict_update_fresh d []).
Qed.

(** X9.  Flattening is idempotent: a flat object with distinct keys (keys
    that hold ["."] or ["["] included) flattens to its own entries in their
    order, and so does the result of any flattening, read as an object. *)
Theorem flatten_json_idempotent :
  (forall d : dict scalar,
      NoDup (dict_keys d) -> flatten_json (as_object d) "" = d) /\
  (forall (obj : value) (prefix : string),
      flatten_json (as_object (flatten_json obj prefix)) ""
      = flatten_json obj prefix).
Proof.
  split; [exact flatten_json_flat_object|].
  intros obj prefix. apply flatten_json_flat_object.
  rewrite flatten_json_inserts_leaves. apply NoDup_dict_update. constructor.
Qed.

Lemma flatten_json_idempotent_witness :
  NoDup (dict_keys [("a.b", SInt 1); ("c[0]", SInt 2)]) /\
  flatten_json (as_object [("a.b", SInt 1); ("c[0]", SInt 2)]) ""
  = [("a.b", SInt 1); ("c[0]", SInt 2)].
Proof.
  assert (Hnd : NoDup (dict_keys [("a.b", SInt 1); ("c[0]", SInt 2)])).
  { repeat constructor; simpl; intros H;
      repeat (destruct H as [H|H]; [discriminate|]); exact H. }
  split; [exact Hnd|].
  exact (proj1 flatten_json_idempotent _ Hnd).
Defined.

(** *** The key-path rule *)

Lemma leaf_paths_list_items_flat_map (p : string) (items : list value) :
  forall i : nat,
    leaf_paths_list_items leaf_paths p items i
    = flat_map (fun it => leaf_paths (snd it) (element_key p (fst it)))
               (numbered i items).
Proof.
  induction items as [|c rest IH]; intros i; [reflexivity|].
  rewrite numbered_cons. cbn [leaf_paths_list_items flat_map fst snd].
  now rewrite IH.
Qed.

Lemma leaf_paths_dict_items_flat_map (p : string)
    (items : list (string * value)) :
  leaf_paths_dict_items leaf_paths p items
  = flat_map (fun kv => leaf_paths (snd kv) (member_key p (fst kv))) items.
Proof.
  induction items as [|[key c] rest IH]; [reflexivity|].
  cbn [leaf_paths_dict_items flat_map fst snd]. now rewrite IH.
Qed.

(** Merging the flattened parts one after the other is inserting their
    leaves one after the other. *)
Lemma dict_update_flattened_parts {X : Type} (part : X -> value)
    (key : X -> string) (l : list X) :
  forall d : dict scalar,
    dict_update d (flat_map (fun x => flatten_json (part x) (key x)) l)
    = dict_update d (flat_map (fun x => leaf_paths (part x) (key x)) l).
Proof.
  induction l as [|x l IH]; intros d; [reflexivity|].
  cbn [flat_map]. rewrite !dict_update_app.
  rewrite flatten_json_inserts_leaves, dict_update_update. apply IH.
Qed.

Lemma flatten_json_of_list (l : list value) (prefix : string) :
  flatten_json (VList l) prefix
  = dict_update []
      (flat_map (fun it => flatten_json (snd it)
                             (element_key prefix (fst it)))
                (numbered 0 l)).
Proof.
  rewrite flatten_json_inserts_leaves. cbn [leaf_paths].
  rewrite leaf_paths_list_items_flat_map.
  symmetry. apply (dict_update_flattened_parts snd
                     (fun it => element_key prefix (fst it))).
Qed.

Lemma flatten_json_of_dict (d : list (string * value)) (prefix : string) :
  flatten_json (VDict d) prefix
  = dict_update []
      (flat_map (fun kv => flatten_json (snd kv)
                             (member_key prefix (fst kv)))
                d).
Proof.
  rewrite flatten_json_inserts_leaves. cbn [leaf_paths].
  rewrite leaf_paths_dict_items_flat_map.
  symmetry. apply (dict_update_flattened_parts snd
                     (fun kv => member_key prefix (fst kv))).
Qed.

(** C6.  Key-paths join object keys with ["."] and array indices with
    ["[i]"], counted from zero, in the order of a pre-order traversal.  A
    scalar is stored under the prefix it is reached with.  An object
    flattens to the flattenings of its members, each under the prefix
    followed by ["."] and the key (the key alone when the prefix is empty),
    merged in the order of the members; a list flattens to the
    flattenings of its elements, element [i] under the prefix followed by
    ["[i]"], merged in the order of the elements; and merging entries whose
    keys are distinct is putting them one after the other.  The two
    examples of the specification evaluate to the mappings it gives, with
    the keys in that order. *)
Theorem flatten_json_key_paths :
  flatten_json
    (VDict [("a", VDict [("b", VInt 1)]); ("c", VList [VInt 2; VInt 3])]) ""
  = [("a.b", SInt 1); ("c[0]", SInt 2); ("c[1]", SInt 3)] /\
  flatten_json (VList [VInt 1; VInt 2; VInt 3]) ""
  = [("[0]", SInt 1); ("[1]", SInt 2); ("[2]", SInt 3)] /\
  (forall (s : scalar) (prefix : string),
      flatten_json (Scalar s) prefix = [(prefix, s)]) /\
  (forall (d : list (string * value)) (prefix : string),
      flatten_json (VDict d) prefix
      = dict_update []
          (flat_map
             (fun kv =>
                flatten_json (snd kv)
                  (if Py.truthy prefix
                   then (prefix ++ "." ++ fst kv)%string
                   else fst kv))
             d)) /\
  (forall (l : list value) (prefix : string),
      flatten_json (VList l) prefix
      = dict_update []
          (flat_map
             (fun it =>
                flatten_json (snd it)
                  (prefix ++ "[" ++ Py.str_of_nat (fst it) ++ "]")%string)
             (numbered 0 l))) /\
  (forall entries : dict scalar,
      NoDup (dict_keys entries) -> dict_update [] entries = entries).
Proof.
  split; [reflexivity|]. split; [reflexivity|]. split; [reflexivity|].
  split; [exact flatten_json_of_dict|]. split; [exact flatten_json_of_list|].
  intros entries Hnd. now apply (dict_update_fresh entries []).
Qed.

Lemma flatten_json_key_paths_witness :
  NoDup (dict_keys [("a.b", SInt 1); ("c[0]", SInt 2)]) /\
  dict_update [] [("a.b", SInt 1); ("c[0]", SInt 2)]
  = [("a.b", SInt 1); ("c[0]", SInt 2)].
Proof.
  assert (Hnd : NoDup (dict_keys [("a.b", SInt 1); ("c[0]", SInt 2)])).
  { repeat constructor; simpl; intros H;
      repeat (destruct H as [H|H]; [discriminate|]); exact H. }
  split; [exact Hnd|].
  exact (proj2 (proj2 (proj2 (proj2 (proj2 flatten_json_key_paths))))
           _ Hnd).
Defined.

(** *** Nesting depth *)

Lemma flatten_json_of_member (x : value) (key : string) :
  match x with
  | Scalar s => dict_set [] key s
  | _ => dict_update [] (flatten_json x key)
  end
  = flatten_json x key.
Proof.
  destruct x as [s|l|d]; [reflexivity| |];
    now rewrite flatten_json_inserts_leaves, dict_update_update.
Qed.

Lemma flatten_json_nest (n : nat) (v : value) :
  forall prefix : string,
    flatten_json (nest n v) prefix = flatten_json v (nested_key prefix n).
Proof.
  induction n as [|n IH]; intros prefix; [reflexivity|].
  cbn [nest nested_key flatten_json flatten_list_items].
  change (prefix ++ "[" ++ Py.str_of_nat 0 ++ "]")%string
    with (prefix ++ "[0]")%string.
  rewrite flatten_json_of_member. apply IH.
Qed.

(** C5, counterexample.  A scalar under fifty nested lists: the value is
    flattened to its one entry, and the JSON extractor returns the record
    of the item; no limit on the depth comes into the call. *)
Lemma flatten_json_flattens_deep_nesting :
  nesting_depth (nest 50 (VInt 1)) = 50%nat /\
  flatten_json (nest 50 (VInt 1)) "" = [(nested_key "" 50, SInt 1)] /\
  exists c : chunk,
    snd (extract_text_from_json (world_with_json (nest 50 (VInt 1)))
           "deep.json" initial_state)
    = Ok [c] /\
    text c = (nested_key "" 49 ++ ": 1")%string.
Proof.
  split; [vm_compute; reflexivity|]. split; [vm_compute; reflexivity|].
  eexists. split; vm_compute; reflexivity.
Qed.

(** C5, as the code has it.  [flatten_json] has no limit on the nesting
    depth and no error of its own: it takes the value and the prefix and
    nothing else, and a value under [n] more levels of lists, whatever
    [n], is flattened as the value itself is, under the prefix followed by
    [n] index segments; so a scalar however deep gives its one entry. *)
Theorem flatten_json_has_no_depth_guard :
  forall (n : nat) (v : value) (prefix : string),
    nesting_depth (nest n v) = (n + nesting_depth v)%nat /\
    flatten_json (nest n v) prefix = flatten_json v (nested_key prefix n) /\
    forall s : scalar,
      flatten_json (nest n (Scalar s)) prefix = [(nested_key prefix n, s)].
Proof.
  intros n v prefix. split; [apply nesting_depth_nest|].
  split; [apply flatten_json_nest|].
  intros s. now rewrite flatten_json_nest.
Qed.

(* ================================================================= *)
(** ** The text of a JSON record *)

Lemma string_forallb_append (p : ascii -> bool) (a b : string) :
  string_forallb p (a ++ b) = string_forallb p a && string_forallb p b.
Proof.
  induction a as [|c a IH]; simpl; [reflexivity|].
  now rewrite IH, andb_assoc.
Qed.

Lemma lstrip_keeps_text (s : string) :
  string_forallb Py.is_space s = false ->
  exists (c : ascii) (s' : string),
    Py.lstrip s = String c s' /\ Py.is_space c = false.
Proof.
  induction s as [|c s IH]; simpl; intros H; [discriminate|].
  destruct (Py.is_space c) eqn:Hc; [now apply IH|].
  exists c, s. auto.
Qed.

Lemma strip_keeps_text (s : string) :
  string_forallb Py.is_space s = false -> Py.strip s <> "".
Proof.
  intros H. unfold Py.strip.
  destruct (lstrip_keeps_text s H) as (c & s' & -> & Hc).
  cbn [Py.rstrip]. rewrite Hc. destruct (Py.rstrip s'); discriminate.
Qed.

Lemma render_flattened_text (d : dict scalar) :
  d <> [] -> Py.strip (render_flattened d) <> "".
Proof.
  destruct d as [|[k v] d]; [contradiction|]. intros _.
  apply strip_keeps_text. unfold render_flattened, Py.join.
  cbn [map String.concat fst snd].
  assert (Hline : string_forallb Py.is_space
                    (k ++ ": " ++ str_of_scalar v) = false).
  { rewrite string_forallb_append. cbn. apply andb_false_r. }
  destruct (map _ d); [exact Hline|].
  rewrite string_forallb_append, Hline. reflexivity.
Qed.

Lemma dict_update_nonempty {A : Type} (l : list (string * A)) :
  forall d : dict A, d <> [] \/ l <> [] -> dict_update d l <> [].
Proof.
  induction l as [|[k v] l IH]; intros d [H|H]; try assumption;
    try contradiction.
  - rewrite dict_update_cons. apply IH. left.
    destruct d as [|[k0 v0] d]; [contradiction|]. simpl.
    destruct (String.eqb k0 k); discriminate.
  - rewrite dict_update_cons. apply IH. left.
    destruct d as [|[k0 v0] d]; simpl; [discriminate|].
    destruct (String.eqb k0 k); discriminate.
Qed.

Lemma flatten_json_empty_iff (obj : value) (prefix : string) :
  flatten_json obj prefix = [] <-> leaf_count obj = 0%nat.
Proof.
  rewrite flatten_json_inserts_leaves, <- (length_leaf_paths obj prefix).
  destruct (leaf_paths obj prefix) as [|kv l]; [split; reflexivity|].
  split; [|discriminate]. intros H. exfalso.
  revert H. apply dict_update_nonempty. right. discriminate.
Qed.

(** X10.  The text of the record of a JSON item is empty exactly when the
    item has no scalar leaf, as the empty object, the empty list and lists
    of them have none; the record of any other item has text once
    trimmed. *)
Theorem json_record_text_empty_iff_no_leaf :
  forall (json_path : string) (total_items i : nat) (item : value),
    (text (json_chunk json_path total_items i item) = ""
     <-> leaf_count item = 0%nat) /\
    ((0 < leaf_count item)%nat ->
     has_text (json_chunk json_path total_items i item)).
Proof.
  intros json_path total_items i item. cbn [json_chunk text].
  assert (Htext : (0 < leaf_count item)%nat ->
                  Py.strip (render_flattened (flatten_json item "")) <> "").
  { intros Hpos. apply render_flattened_text.
    intros Hempty. apply flatten_json_empty_iff in Hempty. lia. }
  split; [split|exact Htext].
  - intros Hempty.
    destruct (leaf_count item) as [|n] eqn:Hn; [reflexivity|].
    exfalso. apply Htext; [lia|]. now rewrite Hempty.
  - intros Hnone. apply (flatten_json_empty_iff item "") in Hnone.
    now rewrite Hnone.
Qed.

Lemma json_record_text_empty_iff_no_leaf_witness :
  (0 < leaf_count (VDict [("a", VList [VInt 1])]))%nat /\
  has_text (json_chunk "data.json" 1 0 (VDict [("a", VList [VInt 1])])).
Proof.
  split; [vm_compute; lia|].
  apply (proj2 (json_record_text_empty_iff_no_leaf
                  "data.json" 1 0 (VDict [("a", VList [VInt 1])]))).
  vm_compute. lia.
Defined.

(* ================================================================= *)
(** ** More on the orchestrator *)

Section WrittenFacts.

Context {A B : Type}.

Lemma keeps_written_bind (m : M A) (k : A -> M B) :
  keeps_written m -> (forall a, keeps_written (k a)) ->
  keeps_written (bind m k).
Proof.
  intros Hm Hk st. unfold bind. specialize (Hm st).
  destruct (m st) as [st' [a|e]]; simpl in *; [|assumption].
  now rewrite Hk.
Qed.

Lemma keeps_written_logging_errors (what : string) (body : M A) :
  keeps_written body -> keeps_written (logging_errors what body).
Proof.
  intros Hb st. unfold logging_errors. specialize (Hb st).
  destruct (body st) as [st' [a|e]]; simpl in *; assumption.
Qed.

Lemma keeps_written_ret (a : A) : keeps_written (ret a).
Proof. intros st. reflexivity. Qed.

Lemma keeps_written_lift (o : outcome A) : keeps_written (lift o).
Proof. intros st. reflexivity. Qed.

End WrittenFacts.

Lemma keeps_written_log (lvl : level) (msg : string) :
  keeps_written (log lvl msg).
Proof. intros st. reflexivity. Qed.

Create HintDb keeps_written.

#[local] Hint Resolve keeps_written_bind keeps_written_logging_errors
  keeps_written_ret keeps_written_lift keeps_written_log : keeps_written.

Lemma keeps_written_pdf_loop (pdf_path : string) (num_pages : nat)
    (pages : list string) :
  forall (i : nat) (results : list chunk),
    keeps_written (pdf_loop pdf_path num_pages pages i results).
Proof.
  induction pages as [|t rest IH]; intros i results; cbn [pdf_loop];
    [apply keeps_written_ret|].
  destruct (no_text t); auto with keeps_written.
Qed.

Lemma keeps_written_extract_by_extension (w : world) (p ext : string) :
  keeps_written (extract_by_extension w p ext).
Proof.
  assert (Htxt : keeps_written (extract_text_from_txt w p)).
  { unfold extract_text_from_txt.
    apply keeps_written_logging_errors, keeps_written_bind;
      auto with keeps_written.
    intros _. apply keeps_written_bind; auto with keeps_written.
    intros t. destruct (no_text t); auto 10 with keeps_written. }
  unfold extract_by_extension.
  destruct (String.eqb ext ".pdf");
    [|destruct (String.eqb ext ".txt");
      [|destruct (String.eqb ext ".json")]];
    auto with keeps_written.
  - unfold extract_text_from_pdf.
    apply keeps_written_logging_errors, keeps_written_bind;
      auto with keeps_written.
    intros _. apply keeps_written_bind; auto with keeps_written.
    intros pages. apply keeps_written_bind; auto 10 with keeps_written.
    apply keeps_written_pdf_loop.
  - unfold extract_text_from_json.
    apply keeps_written_logging_errors. auto 10 with keeps_written.
Qed.

Lemma keeps_log_extract_by_extension (w : world) (p ext : string) :
  keeps_log (extract_by_extension w p ext).
Proof.
  pose proof (keeps_log_extract_text_from_txt w p) as Htxt.
  unfold extract_by_extension.
  destruct (String.eqb ext ".pdf");
    [|destruct (String.eqb ext ".txt");
      [|destruct (String.eqb ext ".json")]];
    auto with keeps_log.
  - unfold extract_text_from_pdf.
    apply keeps_log_logging_errors, keeps_log_bind; auto with keeps_log.
    intros _. apply keeps_log_bind; auto with keeps_log.
    intros pages. apply keeps_log_bind; auto 10 with keeps_log.
    apply keeps_log_pdf_loop.
  - unfold extract_text_from_json.
    apply keeps_log_logging_errors. auto 10 with keeps_log.
Qed.

Lemma extract_text_from_pdf_result (w : world) (p : string) (st : state) :
  snd (extract_text_from_pdf w p st)
  = (pages <- pdf_page_texts w p ;; Ok (pdf_records p pages)).
Proof.
  unfold extract_text_from_pdf.
  rewrite snd_logging_errors, snd_bind. cbn [log snd fst].
  rewrite snd_bind. cbn [lift snd fst].
  destruct (pdf_page_texts w p) as [pages|e]; cbn [rbind]; [|reflexivity].
  rewrite snd_bind, pdf_loop_records. cbn [app].
  rewrite snd_bind. reflexivity.
Qed.

Lemma extract_text_from_json_result (w : world) (p : string) (st : state) :
  snd (extract_text_from_json w p st)
  = (json_content <- json_load w p ;; Ok (json_records p json_content)).
Proof.
  unfold extract_text_from_json.
  rewrite snd_logging_errors, snd_bind. cbn [log snd fst].
  rewrite snd_bind. cbn [lift snd fst].
  destruct (json_load w p) as [v|e]; cbn [rbind]; [|reflexivity].
  rewrite snd_bind. cbn [log snd fst ret].
  now rewrite json_loop_records.
Qed.

Lemma extract_by_extension_result (w : world) (p ext : string)
    (st : state) :
  snd (extract_by_extension w p ext st) = extraction w p ext.
Proof.
  unfold extract_by_extension, extraction.
  destruct (String.eqb ext ".pdf");
    [apply extract_text_from_pdf_result|].
  destruct (String.eqb_spec ext ".txt") as [->|Htxt].
  - cbn. apply extract_text_from_txt_result.
  - destruct (String.eqb ext ".json");
      [apply extract_text_from_json_result|].
    rewrite snd_bind. cbn [log snd fst]. apply extract_text_from_txt_result.
Qed.

(** X11.  What [process_document] returns.  For a path that does not
    exist it raises [ValueError] with the message [File does not exist:]
    and the path, whatever the extension.  For one that exists it returns
    the records of the extractor its lower-cased extension selects, each as
    it is when its text has at most 1000 characters and else cut in its
    full windows of 1000 characters every 800; it raises what the read or
    the parse raised, or else what the saving of these records raised:
    the opening of the output file, or the dump into it and its close. *)
Theorem process_document_outcome :
  forall (w : world) (file_path : string) (output_path : option string)
         (st : state),
    (path_exists w file_path = false ->
     snd (process_document w file_path output_path st)
     = Err (missing_file file_path)) /\
    (path_exists w file_path = true ->
     snd (process_document w file_path output_path st)
     = (records <- extraction w file_path (file_ext_of file_path) ;;
        _ <- save_outcome w output_path
               (flat_map (pieces default_chunk_size default_overlap)
                         records) ;;
        Ok (flat_map (pieces default_chunk_size default_overlap) records))).
Proof.
  intros w file_path output_path st. split; intros Hexists.
  - unfold process_document. rewrite snd_logging_errors, Hexists.
    reflexivity.
  - destruct (process_document_result w file_path output_path st Hexists)
      as [st1 ->].
    rewrite extract_by_extension_result.
    destruct (extraction _ _ _) as [records|e]; cbn [rbind]; [|reflexivity].
    rewrite split_into_chunks_pieces
      by (unfold default_chunk_size, default_overlap; lia).
    reflexivity.
Qed.

Lemma process_document_outcome_witness :
  path_exists example_world "a.PDF" = true /\
  snd (process_document example_world "a.PDF" None initial_state)
  = Ok [pdf_chunk "a.PDF" 3 1 "page one"] /\
  snd (process_document failing_dump_world "notes.txt" (Some "out.json")
         initial_state)
  = Err (Exn OSError "No space left on device").
Proof.
  split; [reflexivity|]. split.
  - rewrite (proj2 (process_document_outcome example_world "a.PDF" None
                      initial_state) eq_refl).
    reflexivity.
  - rewrite (proj2 (process_document_outcome failing_dump_world "notes.txt"
                      (Some "out.json") initial_state) eq_refl).
    reflexivity.
Defined.

Lemma written_logging_errors {A : Type} (what : string) (body : M A)
    (st : state) :
  written (fst (logging_errors what body st)) = written (fst (body st)).
Proof.
  unfold logging_errors. destruct (body st) as [st' [a|e]]; reflexivity.
Qed.

Lemma writes_output_bind {A : Type} (w : world)
    (output_path : option string) (m : M A) (k : A -> M (list chunk)) :
  keeps_written m ->
  (forall a, writes_output w output_path (k a)) ->
  writes_output w output_path (bind m k).
Proof.
  intros Hm Hk st. unfold bind. specialize (Hm st).
  destruct (m st) as [st' [a|e]]; cbn [fst snd] in *.
  - rewrite <- Hm. apply Hk.
  - split; [discriminate|]. intros e' _. now left.
Qed.

Lemma writes_output_logging_errors (w : world)
    (output_path : option string) (what : string)
    (body : M (list chunk)) :
  writes_output w output_path body ->
  writes_output w output_path (logging_errors what body).
Proof.
  intros Hb st. rewrite written_logging_errors, snd_logging_errors.
  apply Hb.
Qed.

Lemma writes_output_raise (w : world) (output_path : option string)
    (e : exn) :
  writes_output w output_path (raise e).
Proof. intros st. split; [discriminate|]. intros e' _. now left. Qed.

Lemma writes_output_save (w : world) (output_path : option string)
    (chunks : list chunk) :
  writes_output w output_path
    (bind (save_output w output_path chunks) (fun _ => ret chunks)).
Proof.
  intros st. unfold save_output, output_written.
  destruct output_path as [p|].
  2: { cbn. split; [intros c _; now rewrite app_nil_r|discriminate]. }
  destruct (Py.truthy p).
  2: { cbn. split; [intros c _; now rewrite app_nil_r|discriminate]. }
  unfold bind, lift, file_opened, file_dumped, log, ret.
  destruct (open_for_writing w p) as [[]|e] eqn:Hopen; cbn [fst snd].
  2: { split; [discriminate|]. intros e' _. now left. }
  destruct (dump_json w p chunks) as [[]|e] eqn:Hdump;
    cbn [fst snd logs written].
  - split; [|discriminate]. intros c Hc. injection Hc as <-.
    now rewrite <- app_assoc.
  - split; [discriminate|]. intros e' He'. injection He' as <-.
    right. exists p, chunks. auto.
Qed.

(** X12.  What [process_document] does to files.  When it returns, it has
    opened and written one file, the output file, which holds exactly the
    records returned, or none when no output path was given or the path is
    empty.  When it raises, either it has touched no file, or it has opened
    the output file and the dump of the records is what raised, and the
    file is left incomplete. *)
Theorem process_document_writes_what_it_returns :
  forall (w : world) (file_path : string) (output_path : option string)
         (st : state),
    (forall chunks : list chunk,
        snd (process_document w file_path output_path st) = Ok chunks ->
        written (fst (process_document w file_path output_path st))
        = written st ++ output_written output_path chunks) /\
    (forall e : exn,
        snd (process_document w file_path output_path st) = Err e ->
        written (fst (process_document w file_path output_path st))
        = written st \/
        exists (p : string) (chunks : list chunk),
          output_path = Some p /\
          open_for_writing w p = Ok tt /\
          dump_json w p chunks = Err e /\
          written (fst (process_document w file_path output_path st))
          = written st ++ [(p, Incomplete)]).
Proof.
  intros w file_path output_path.
  change (writes_output w output_path
            (process_document w file_path output_path)).
  unfold process_document.
  apply writes_output_logging_errors.
  destruct (path_exists w file_path); cbn [negb];
    [|apply writes_output_raise].
  apply writes_output_bind; [apply keeps_written_log|]. intros _.
  apply writes_output_bind; [apply keeps_written_extract_by_extension|].
  intros records.
  apply writes_output_bind; [apply keeps_written_lift|].
  intros chunks. apply writes_output_save.
Qed.

Lemma logging_errors_logs {A : Type} (what : string) (body : M A)
    (st : state) (e : exn) :
  snd (logging_errors what body st) = Err e ->
  In (Log ERROR (what ++ ": " ++ exn_msg e))
     (logs (fst (logging_errors what body st))) /\
  In (LogTraceback e) (logs (fst (logging_errors what body st))).
Proof.
  unfold logging_errors. destruct (body st) as [st' [a|e']]; cbn;
    intros H; [discriminate|]. injection H as ->.
  split; apply in_app_iff; right; simpl; auto.
Qed.

Lemma keeps_log_process_document (w : world) (file_path : string)
    (output_path : option string) :
  keeps_log (process_document w file_path output_path).
Proof.
  unfold process_document. apply keeps_log_logging_errors.
  destruct (negb (path_exists w file_path)); [apply keeps_log_raise|].
  apply keeps_log_bind; [apply keeps_log_log|]. intros _.
  apply keeps_log_bind; [apply keeps_log_extract_by_extension|].
  intros records. apply keeps_log_bind; [apply keeps_log_lift|].
  intros chunks. apply keeps_log_bind; [apply keeps_log_save_output|].
  intros _. apply keeps_log_ret.
Qed.

(** X13.  [process_document] keeps every entry already in the log, and
    when it raises it has logged, at level ERROR, the message of the
    exception after [Error processing document:], and the traceback. *)
Theorem process_document_logs_its_failure :
  forall (w : world) (file_path : string) (output_path : option string)
         (st : state),
    (forall r : log_record,
        In r (logs st) ->
        In r (logs (fst (process_document w file_path output_path st)))) /\
    (forall e : exn,
        snd (process_document w file_path output_path st) = Err e ->
        In (Log ERROR ("Error processing document: " ++ exn_msg e))
           (logs (fst (process_document w file_path output_path st))) /\
        In (LogTraceback e)
           (logs (fst (process_document w file_path output_path st)))).
Proof.
  intros w file_path output_path st. split.
  - intros r. apply keeps_log_process_document.
  - intros e. unfold process_document. apply logging_errors_logs.
Qed.

(** X14.  The command line reports what [process_document] did: when it
    returned, the status [success] with the number of records returned,
    and exit status 0; when it raised, the status [error] with the message
    of the exception, and exit status 1; so for a path that does not exist
    the message is [File does not exist:] and the path. *)
Theorem main_reports_the_outcome :
  forall (w : world) (file_path : string) (output : option string)
         (st : state),
    (forall chunks : list chunk,
        snd (process_document w file_path output st) = Ok chunks ->
        snd (main w file_path output st)
        = ([("status", VStr "success");
            ("chunk_count", VInt (Z.of_nat (List.length chunks)))],
           0)) /\
    (forall e : exn,
        snd (process_document w file_path output st) = Err e ->
        snd (main w file_path output st)
        = ([("status", VStr "error"); ("error", VStr (exn_msg e))], 1)) /\
    (path_exists w file_path = false ->
     snd (main w file_path output st)
     = ([("status", VStr "error");
         ("error", VStr ("File does not exist: " ++ file_path))],
        1)) /\
    fst (main w file_path output st)
    = fst (process_document w file_path output st).
Proof.
  intros w file_path output st.
  assert (Hmissing : path_exists w file_path = false ->
                     snd (process_document w file_path output st)
                     = Err (missing_file file_path)).
  { intros Hexists. unfold process_document.
    rewrite snd_logging_errors, Hexists. reflexivity. }
  unfold main.
  destruct (process_document w file_path output st) as [st' [chunks|e]];
    cbn [fst snd] in *.
  - split; [|split; [|split]]; try reflexivity.
    + intros chunks' H. now injection H as <-.
    + intros e H. discriminate.
    + intros H. apply Hmissing in H. discriminate.
  - split; [|split; [|split]]; try reflexivity.
    + intros chunks H. discriminate.
    + intros e' H. now injection H as <-.
    + intros H. apply Hmissing in H. now injection H as ->.
Qed.

(* ================================================================= *)
(** ** The re-chunker over several records *)

(** X15.  The re-chunker treats the records one by one and keeps their
    order: re-chunking a list made of two parts gives what the first part
    gives followed by what the second gives, and raises what the first
    part raises, or else what the second raises. *)
Theorem split_into_chunks_concatenates :
  forall (pre post : list chunk) (chunk_size overlap : Z),
    split_into_chunks (pre ++ post) chunk_size overlap =
    (o1 <- split_into_chunks pre chunk_size overlap ;;
     o2 <- split_into_chunks post chunk_size overlap ;;
     Ok (o1 ++ o2)).
Proof.
  intros pre post chunk_size overlap. apply split_into_chunks_app.
Qed.

(** X16.  The [total_chunks_from_original] of the sub-chunks of a record
    is the same on all of them and is never less than the number of
    sub-chunks the record gives. *)
Theorem total_chunks_from_original_bounds_the_count :
  forall (item : chunk) (chunk_size overlap : Z),
    0 <= overlap < chunk_size ->
    chunk_size < Py.len (text item) ->
    exists (chunks : list chunk) (total : Z),
      split_into_chunks [item] chunk_size overlap = Ok chunks /\
      Z.of_nat (List.length chunks) <= total /\
      Forall (fun c =>
                dict_get (metadata c) "total_chunks_from_original"
                = Some (VInt total))
             chunks.
Proof.
  intros item chunk_size overlap Hov Hlong.
  eexists. exists ((Py.len (text item) + chunk_size - 1)
                   / (chunk_size - overlap)).
  split; [now apply split_single_long|]. split.
  - rewrite length_map, length_seq. unfold full_windows.
    assert (Hstep : 0 < chunk_size - overlap) by lia.
    assert (0 <= (Py.len (text item) - chunk_size) / (chunk_size - overlap))
      by (apply Z.div_pos; lia).
    rewrite Z2Nat.id by lia.
    replace ((Py.len (text item) - chunk_size) / (chunk_size - overlap) + 1)
      with ((Py.len (text item) - chunk_size + 1 * (chunk_size - overlap))
            / (chunk_size - overlap))
      by (rewrite Z.div_add by lia; reflexivity).
    apply Z.div_le_mono; lia.
  - apply Forall_forall. intros c Hc.
    apply in_map_iff in Hc as (k & <- & _).
    apply sub_chunk_total_chunks.
Qed.

Lemma total_chunks_from_original_bounds_the_count_witness :
  0 <= 200 < 1000 /\
  1000 < Py.len (text (Chunk (text_of_length 2500) [])) /\
  exists (chunks : list chunk) (total : Z),
    split_into_chunks [Chunk (text_of_length 2500) []] 1000 200
    = Ok chunks /\
    Z.of_nat (List.length chunks) <= total /\
    Forall (fun c =>
              dict_get (metadata c) "total_chunks_from_original"
              = Some (VInt total))
           chunks.
Proof.
  split; [lia|]. split; [vm_compute; reflexivity|].
  apply (total_chunks_from_original_bounds_the_count
           (Chunk (text_of_length 2500) []) 1000 200).
  - lia.
  - vm_compute. reflexivity.
Defined.

Lemma split_into_chunks_zero_step (chunk_size : Z) (texts : list chunk) :
  Exists (fun item => chunk_size < Py.len (text item)) texts ->
  split_into_chunks texts chunk_size chunk_size
  = Err (Exn ValueError "range() arg 3 must not be zero").
Proof.
  induction 1 as [item rest Hlong|item rest _ IH];
    rewrite split_into_chunks_cons.
  - now rewrite split_item_zero_step.
  - rewrite IH.
    destruct (Z.leb_spec (Py.len (text item)) chunk_size).
    + now rewrite split_item_short.
    + now rewrite split_item_zero_step.
Qed.

(** X17.  When the re-chunker raises: exactly when [overlap] equals
    [chunk_size] and some record is longer than [chunk_size]; the exception
    is then the [ValueError] of [range] for a zero step.  In every other
    case, a negative or an oversized overlap included, it returns. *)
Theorem split_into_chunks_raises_iff :
  forall (texts : list chunk) (chunk_size overlap : Z),
    ((exists e : exn, split_into_chunks texts chunk_size overlap = Err e)
     <-> overlap = chunk_size /\
         Exists (fun item => chunk_size < Py.len (text item)) texts) /\
    (forall e : exn,
        split_into_chunks texts chunk_size overlap = Err e ->
        e = Exn ValueError "range() arg 3 must not be zero").
Proof.
  intros texts chunk_size overlap.
  assert (Hraise : forall e,
             split_into_chunks texts chunk_size overlap = Err e ->
             overlap = chunk_size /\
             Exists (fun item => chunk_size < Py.len (text item)) texts).
  { intros e He.
    destruct (Z.eq_dec (chunk_size - overlap) 0) as [Hzero|Hstep].
    - split; [lia|].
      destruct (Forall_Exists_dec
                  (fun item => Py.len (text item) <= chunk_size)
                  (fun item => Z_le_dec (Py.len (text item)) chunk_size)
                  texts) as [Hall|Hex].
      + rewrite split_into_chunks_all_short in He by assumption.
        discriminate.
      + eapply Exists_impl; [|exact Hex]. intros item Hitem. cbn in Hitem.
        lia.
    - destruct (split_into_chunks_returns chunk_size overlap texts Hstep)
        as [out Hout].
      congruence. }
  split; [split|].
  - intros [e He]. now apply (Hraise e).
  - intros [-> Hex]. eexists. now apply split_into_chunks_zero_step.
  - intros e He. destruct (Hraise e He) as [-> Hex].
    rewrite split_into_chunks_zero_step in He by assumption. congruence.
Qed.

Lemma process_document_logs_its_failure_witness :
  snd (process_document empty_world "gone.txt" None initial_state)
  = Err (missing_file "gone.txt") /\
  In (Log ERROR "Error processing document: File does not exist: gone.txt")
     (logs (fst (process_document empty_world "gone.txt" None
                   initial_state))).
Proof.
  split; [reflexivity|].
  apply (proj2 (process_document_logs_its_failure empty_world "gone.txt"
                  None initial_state)
           (missing_file "gone.txt") eq_refl).
Defined.

Lemma main_reports_the_outcome_witness :
  path_exists empty_world "gone.txt" = false /\
  snd (main empty_world "gone.txt" None initial_state)
  = ([("status", VStr "error");
      ("error", VStr "File does not exist: gone.txt")],
     1) /\
  snd (main example_world "notes.txt" None initial_state)
  = ([("status", VStr "success"); ("chunk_count", VInt 1)], 0).
Proof.
  split; [reflexivity|]. split.
  - apply (proj1 (proj2 (proj2 (main_reports_the_outcome
                                  empty_world "gone.txt" None
                                  initial_state)))).
    reflexivity.
  - apply (proj1 (main_reports_the_outcome example_world "notes.txt" None
                    initial_state)
             [txt_chunk "notes.txt" "hello" 1000 0]).
    reflexivity.
Defined.

Lemma split_into_chunks_raises_iff_witness :
  3 = 3 /\
  Exists (fun item => 3 < Py.len (text item)) [Chunk "abcdef" []] /\
  exists e : exn, split_into_chunks [Chunk "abcdef" []] 3 3 = Err e.
Proof.
  assert (Hlong : Exists (fun item => 3 < Py.len (text item))
                         [Chunk "abcdef" []])
    by (left; vm_compute; reflexivity).
  split; [reflexivity|]. split; [exact Hlong|].
  apply (proj2 (proj1 (split_into_chunks_raises_iff
                         [Chunk "abcdef" []] 3 3))).
  split; [reflexivity|exact Hlong].
Defined.

Lemma process_document_writes_what_it_returns_witness :
  snd (process_document example_world "notes.txt"
         (Some "out/chunks.json") initial_state)
  = Ok [txt_chunk "notes.txt" "hello" 1000 0] /\
  written (fst (process_document example_world "notes.txt"
                  (Some "out/chunks.json") initial_state))
  = [("out/chunks.json", Incomplete);
     ("out/chunks.json", Holds [txt_chunk "notes.txt" "hello" 1000 0])] /\
  snd (process_document failing_dump_world "notes.txt" (Some "out.json")
         initial_state)
  = Err (Exn OSError "No space left on device") /\
  (written (fst (process_document failing_dump_world "notes.txt"
                   (Some "out.json") initial_state))
   = written initial_state \/
   exists (p : string) (chunks : list chunk),
     Some "out.json" = Some p /\
     open_for_writing failing_dump_world p = Ok tt /\
     dump_json failing_dump_world p chunks
     = Err (Exn OSError "No space left on device") /\
     written (fst (process_document failing_dump_world "notes.txt"
                     (Some "out.json") initial_state))
     = written initial_state ++ [(p, Incomplete)]).
Proof.
  split; [reflexivity|]. split.
  - apply (proj1 (process_document_writes_what_it_returns example_world
                    "notes.txt" (Some "out/chunks.json") initial_state)
             [txt_chunk "notes.txt" "hello" 1000 0]).
    reflexivity.
  - split; [reflexivity|].
    apply (proj2 (process_document_writes_what_it_returns
                    failing_dump_world "notes.txt" (Some "out.json")
                    initial_state)).
    reflexivity.
Defined.
